(** * SeaBird / PanopticBEV: the RC-car data logger [deploy_car/pic_take.py]

    A shallow embedding of the two acquisition loops ([picamera2_loop],
    [opencv_loop]) and of [main], together with the properties of the
    acquisition loop and of its metadata log.

    Modelling conventions.
    - Python [float] values (times, [fps], [seconds]) are rationals [Q]:
      arithmetic is exact, and the only floating-point exception the program
      can meet, [1.0 / 0], is raised explicitly.  (The comparison the loop
      relies on, [t - t0 >= seconds], is exact in binary64 as well: two clock
      readings within a factor of two of each other subtract without
      rounding.)
    - Python [int] values are [Z]; [str] values are [string].
    - Everything the program does to its surroundings goes through a
      [World]: the directories and files on disk, the one open text file
      with its unflushed buffer, the camera, and a [trace] of the effects in
      program order.
    - Everything the surroundings decide is read from an [Env]: the values
      returned by successive [time.time()] calls, whether the camera opens,
      what each capture returns, and the cycle whose [time.sleep] is
      interrupted by Ctrl+C.  As in section 5 of the specification, an
      interrupt is observed at the end-of-cycle sleep.
    - File-system calls succeed (the [OutputUnwritable] failures of the
      specification are outside the model): [os.makedirs] is given a path it
      can create, and only the directory asked for is recorded.
    - The modules the loops import ([picamera2], [cv2]) are installed, so
      the [import] statements at the head of the loop functions do nothing
      that shows.
    - Sleep durations stay within what [time.sleep] accepts.
    - [while True] is run with fuel; [Diverge] is the outcome of a loop that
      is still running when the fuel is used up. *)

From Stdlib Require Import ZArith QArith Qminmax Lqa Lia List Ascii String.
From Stdlib Require Import DecimalString DecimalN DecimalFacts.
From stdpp Require Import base gmap strings list.

Local Open Scope string_scope.

(** ** Strings, numbers, paths *)

Definition NL : string := String "010" EmptyString.
Definition DQ : string := String "034" EmptyString.
Definition BSL : string := String "092" EmptyString.

Fixpoint zeros (n : nat) : string :=
  match n with
  | O => EmptyString
  | S n' => String "0" (zeros n')
  end.

(** [str(n)] for a natural number. *)
Definition digits (n : N) : string := NilZero.string_of_uint (N.to_uint n).

(** [f"{z}"]: sign, then the decimal digits. *)
Definition fmt_d (z : Z) : string :=
  if (z <? 0)%Z then "-" ++ digits (Z.abs_N z) else digits (Z.abs_N z).

(** [f"{z:06d}"]: sign first, then zeros up to a total width of 6. *)
Definition fmt_06d (z : Z) : string :=
  let ds := digits (Z.abs_N z) in
  if (z <? 0)%Z
  then "-" ++ zeros (5 - String.length ds) ++ ds
  else zeros (6 - String.length ds) ++ ds.

Definition starts_with_slash (s : string) : bool :=
  match s with
  | String c _ => Ascii.eqb c "/"
  | EmptyString => false
  end.

Fixpoint ends_with_slash (s : string) : bool :=
  match s with
  | EmptyString => false
  | String c EmptyString => Ascii.eqb c "/"
  | String _ s' => ends_with_slash s'
  end.

(** [os.path.join(a, b)] on a POSIX system. *)
Definition os_path_join (a b : string) : string :=
  if starts_with_slash b then b
  else if (String.eqb a EmptyString || ends_with_slash a)%bool then a ++ b
  else a ++ "/" ++ b.

(** Python's [x > y] and [x >= y] on floats, and [max(a, b)], which keeps
    its first argument unless the second is strictly larger. *)
Definition Qgtb (x y : Q) : bool := negb (Qle_bool x y).
Definition Qgeb (x y : Q) : bool := Qle_bool y x.
Definition py_max (a b : Q) : Q := if Qgtb b a then b else a.

(** ** JSON as [json.dumps] writes it *)

Inductive jvalue :=
| JInt (z : Z)
| JFloat (x : Q)
| JStr (s : string).

(** A Python [dict] literal keeps its insertion order; [json.dumps] writes
    the items in that order. *)
Abbreviation dict := (list (string * jvalue)).

Definition keys (d : dict) : list string := map fst d.

Fixpoint dict_get (k : string) (d : dict) : option jvalue :=
  match d with
  | [] => None
  | (k', v) :: d' => if String.eqb k k' then Some v else dict_get k d'
  end.

Definition hex_digit (n : N) : ascii :=
  if (n <? 10)%N then ascii_of_N (48 + n) else ascii_of_N (87 + n).

(** One character of a JSON string under [ensure_ascii]: the quote and the
    backslash are escaped, control characters are written as escapes.  All the
    strings this program serialises are ASCII; bytes above 127 are copied. *)
Definition json_escape_char (c : ascii) : string :=
  let n := N_of_ascii c in
  if Ascii.eqb c "034" then BSL ++ DQ
  else if Ascii.eqb c "092" then BSL ++ BSL
  else if Ascii.eqb c "010" then BSL ++ "n"
  else if Ascii.eqb c "013" then BSL ++ "r"
  else if Ascii.eqb c "009" then BSL ++ "t"
  else if Ascii.eqb c "008" then BSL ++ "b"
  else if Ascii.eqb c "012" then BSL ++ "f"
  else if ((n <? 32) || (n =? 127))%N
       then BSL ++ "u00" ++ String (hex_digit (n / 16)) (String (hex_digit (n mod 16)) EmptyString)
  else String c EmptyString.

Fixpoint json_escape (s : string) : string :=
  match s with
  | EmptyString => EmptyString
  | String c s' => json_escape_char c ++ json_escape s'
  end.

Definition json_string (s : string) : string := DQ ++ json_escape s ++ DQ.

Fixpoint join (sep : string) (l : list string) : string :=
  match l with
  | [] => EmptyString
  | [x] => x
  | x :: l' => x ++ sep ++ join sep l'
  end.

Section Json.
(** [float.__repr__], the shortest decimal string that reads back as the
    same float, is taken from the platform. *)
Variable float_repr : Q -> string.

Definition json_value (v : jvalue) : string :=
  match v with
  | JInt z => fmt_d z
  | JFloat x => float_repr x
  | JStr s => json_string s
  end.

Definition json_item (kv : string * jvalue) : string :=
  json_string (fst kv) ++ ": " ++ json_value (snd kv).

(** [json.dumps(d)] and [json.dumps(d, indent=n)] for a flat dict. *)
Definition json_dumps (indent : option nat) (d : dict) : string :=
  match d, indent with
  | [], _ => "{}"
  | _, None => "{" ++ join ", " (map json_item d) ++ "}"
  | _, Some n =>
      let pad := NL ++ String.concat EmptyString (repeat " " n) in
      "{" ++ pad ++ join ("," ++ pad) (map json_item d) ++ NL ++ "}"
  end.
End Json.

(** ** Images *)

(** A numpy image array: [shape[:2]] is [(rows, cols)], pixels are triples. *)
Record ndarray := mkArray {
  rows : Z;
  cols : Z;
  pixels : list (Z * Z * Z)
}.

(** [cv2.cvtColor(frame, cv2.COLOR_RGB2BGR)] swaps the outer channels. *)
Definition cvtColor_RGB2BGR (a : ndarray) : ndarray :=
  mkArray (rows a) (cols a) (map (fun '(r, g, b) => (b, g, r)) (pixels a)).

(** ** Exceptions, environment, world *)

Inductive exn :=
| KeyboardInterrupt
| ZeroDivisionError
| ValueError
| RuntimeError (msg : string)
| Picamera2Error                 (* an exception raised inside picamera2 *)
| Cv2Error.                      (* [cv2.error], e.g. an empty image *)

Inductive backend_t := picamera2 | opencv.

(** The parsed command line ([args] in [main]). *)
Record Args := mkArgs {
  out : string;
  fps : Q;
  width : Z;
  height : Z;
  seconds : Q;
  backend : backend_t;
  device : Z
}.

Record Env := mkEnv {
  clock : nat -> Q;                  (* value of the n-th [time.time()] *)
  picamera2_ok : bool;               (* [Picamera2()] finds its camera *)
  cv2_device_ok : Z -> bool;         (* [cv2.VideoCapture(d).isOpened()] *)
  capture : nat -> option ndarray;   (* n-th capture; [None]: it fails *)
  sigint : nat -> bool;              (* Ctrl+C during the n-th [time.sleep] *)
  now_strftime : string;             (* [datetime.now().strftime(...)] *)
  isoformat : Q -> string;           (* [datetime.fromtimestamp(t).isoformat()] *)
  float_repr : Q -> string;          (* [repr] of a float *)
  png_encode : ndarray -> string;    (* bytes [cv2.imwrite] stores *)
  abspath : string -> string         (* [os.path.abspath] *)
}.

Inductive event :=
| EvTime (t : Q)                         (* [time.time()] returned [t] *)
| EvCapture (r : option ndarray)         (* a capture attempt and its outcome *)
| EvImwrite (path : string) (img : ndarray)
| EvWrite (s : string)                   (* [f.write(s)] *)
| EvFlush                                (* [f.flush()] *)
| EvSleep (d : Q)                        (* [time.sleep(d)] *)
| EvPrint (s : string).

Inductive cam_state := CamNone | CamOpened | CamRunning | CamReleased.

Record World := mkWorld {
  dirs : gset string;
  files : gmap string string;
  handle : option (string * string);   (* open text file: path, unflushed data *)
  cam : cam_state;
  trace : list event;
  n_time : nat;
  n_capture : nat;
  n_sleep : nat
}.

Definition set_dirs (f : gset string -> gset string) (w : World) : World :=
  mkWorld (f (dirs w)) (files w) (handle w) (cam w) (trace w) (n_time w) (n_capture w) (n_sleep w).
Definition set_files (f : gmap string string -> gmap string string) (w : World) : World :=
  mkWorld (dirs w) (f (files w)) (handle w) (cam w) (trace w) (n_time w) (n_capture w) (n_sleep w).
Definition set_handle (h : option (string * string)) (w : World) : World :=
  mkWorld (dirs w) (files w) h (cam w) (trace w) (n_time w) (n_capture w) (n_sleep w).
Definition set_cam (c : cam_state) (w : World) : World :=
  mkWorld (dirs w) (files w) (handle w) c (trace w) (n_time w) (n_capture w) (n_sleep w).
Definition emit (e : event) (w : World) : World :=
  mkWorld (dirs w) (files w) (handle w) (cam w) (trace w ++ [e]) (n_time w) (n_capture w) (n_sleep w).
Definition tick_time (w : World) : World :=
  mkWorld (dirs w) (files w) (handle w) (cam w) (trace w) (S (n_time w)) (n_capture w) (n_sleep w).
Definition tick_capture (w : World) : World :=
  mkWorld (dirs w) (files w) (handle w) (cam w) (trace w) (n_time w) (S (n_capture w)) (n_sleep w).
Definition tick_sleep (w : World) : World :=
  mkWorld (dirs w) (files w) (handle w) (cam w) (trace w) (n_time w) (n_capture w) (S (n_sleep w)).

(** The content of a file, empty when the file does not exist. *)
Definition content (fs : gmap string string) (p : string) : string :=
  default EmptyString (fs !! p).

(** ** A state-and-exception monad for the program *)

Inductive result (A : Type) :=
| Ok (a : A)
| Raise (e : exn)
| Diverge.
Arguments Ok {A} a.
Arguments Raise {A} e.
Arguments Diverge {A}.

Definition M (A : Type) : Type := World -> result A * World.

Definition ret {A} (a : A) : M A := fun w => (Ok a, w).
Definition raise {A} (e : exn) : M A := fun w => (Raise e, w).
Definition bind {A B} (m : M A) (k : A -> M B) : M B :=
  fun w =>
    match m w with
    | (Ok a, w') => k a w'
    | (Raise e, w') => (Raise e, w')
    | (Diverge, w') => (Diverge, w')
    end.

Notation "x <~ m ;; k" := (bind m (fun x => k))
  (at level 100, m at next level, right associativity).
Notation "m ;; k" := (bind m (fun _ => k))
  (at level 100, right associativity).

(** ** The library calls the program makes *)

Definition time_time (env : Env) : M Q :=
  fun w =>
    let t := clock env (n_time w) in
    (Ok t, emit (EvTime t) (tick_time w)).

(** [time.sleep(d)]: a negative [d] is a [ValueError]; Ctrl+C during the
    sleep raises [KeyboardInterrupt].  This is the one place at which the
    model lets an interrupt arrive, and durations too long for [time.sleep]
    are not modelled. *)
Definition time_sleep (env : Env) (d : Q) : M unit :=
  fun w =>
    if Qgtb 0 d then (Raise ValueError, w)
    else
      let w' := emit (EvSleep d) (tick_sleep w) in
      if sigint env (n_sleep w) then (Raise KeyboardInterrupt, w') else (Ok tt, w').

(** [import m] / [from m import ...] inside a function: the module is
    installed, nothing observable happens. *)
Definition py_import (m : string) : M unit := ret tt.

Definition print (s : string) : M unit :=
  fun w => (Ok tt, emit (EvPrint s) w).

(** [os.makedirs(p, exist_ok=True)] for a path that can be created; the
    parents it may create on the way are not recorded. *)
Definition os_makedirs (p : string) : M unit :=
  fun w => (Ok tt, set_dirs (fun d => d ∪ {[ p ]}) w).

(** [open(path, "a")] creates the file when it is missing and keeps what it
    holds; [open(path, "w")] truncates. *)
Definition open_append (p : string) : M unit :=
  fun w => (Ok tt, set_handle (Some (p, EmptyString))
                     (set_files (fun fs => <[ p := content fs p ]> fs) w)).

Definition open_write (p : string) : M unit :=
  fun w => (Ok tt, set_handle (Some (p, EmptyString))
                     (set_files (fun fs => <[ p := EmptyString ]> fs) w)).

Definition f_write (s : string) : M unit :=
  fun w =>
    match handle w with
    | Some (p, buf) => (Ok tt, emit (EvWrite s) (set_handle (Some (p, buf ++ s)) w))
    | None => (Raise ValueError, w)
    end.

Definition flush_world (w : World) : World :=
  match handle w with
  | Some (p, buf) =>
      set_handle (Some (p, EmptyString))
        (set_files (fun fs => <[ p := content fs p ++ buf ]> fs) w)
  | None => w
  end.

Definition f_flush : M unit :=
  fun w =>
    match handle w with
    | Some _ => (Ok tt, emit EvFlush (flush_world w))
    | None => (Raise ValueError, w)
    end.

Definition f_close : M unit :=
  fun w => (Ok tt, set_handle None (flush_world w)).

(** [with open(...) as f: body]: the file is closed when the body returns
    and when it raises. *)
Definition with_file {A} (opening : M unit) (body : M A) : M A :=
  fun w =>
    match opening w with
    | (Ok _, w1) =>
        match body w1 with
        | (Ok a, w2) => (Ok a, snd (f_close w2))
        | (Raise e, w2) => (Raise e, snd (f_close w2))
        | (Diverge, w2) => (Diverge, w2)
        end
    | (Raise e, w1) => (Raise e, w1)
    | (Diverge, w1) => (Diverge, w1)
    end.

Definition cv2_imwrite (env : Env) (p : string) (img : ndarray) : M unit :=
  fun w => (Ok tt, emit (EvImwrite p img)
                     (set_files (fun fs => <[ p := png_encode env img ]> fs) w)).

(** [Picamera2()], [configure], [start], [capture_array], [stop]. *)
Definition Picamera2_new (env : Env) : M unit :=
  fun w => if picamera2_ok env then (Ok tt, set_cam CamOpened w)
           else (Raise Picamera2Error, w).

(** [create_video_configuration] and [configure]: the requested size does
    not show in anything the program observes later. *)
Definition cam_configure (w h : Z) : M unit := ret tt.

Definition cam_start : M unit := fun w => (Ok tt, set_cam CamRunning w).

Definition cam_capture_array (env : Env) : M ndarray :=
  fun w =>
    let r := capture env (n_capture w) in
    let w' := emit (EvCapture r) (tick_capture w) in
    match r with
    | Some frame => (Ok frame, w')
    | None => (Raise Picamera2Error, w')
    end.

Definition cam_stop : M unit := fun w => (Ok tt, set_cam CamReleased w).

(** [cv2.VideoCapture(device)], [isOpened], [set], [read], [release].
    [read] returns [(False, None)] when it fails. *)
Definition cv2_VideoCapture (env : Env) (d : Z) : M unit :=
  fun w => (Ok tt, set_cam (if cv2_device_ok env d then CamRunning else CamNone) w).

Definition cap_isOpened : M bool :=
  fun w => (Ok (match cam w with CamRunning => true | _ => false end), w).

(** [cap.set(...)] is a request the device may ignore; its result is not
    looked at. *)
Definition cap_set (prop : string) (v : Z) : M unit := ret tt.

Definition cap_read (env : Env) : M (bool * option ndarray) :=
  fun w =>
    let r := capture env (n_capture w) in
    (Ok (match r with Some _ => true | None => false end, r),
     emit (EvCapture r) (tick_capture w)).

Definition cap_release : M unit := fun w => (Ok tt, set_cam CamReleased w).

(** Python's [1.0 / x]. *)
Definition truediv (a b : Q) : M Q :=
  if Qeq_bool b 0 then raise ZeroDivisionError else ret (a / b)%Q.

(** ** The program *)

Definition ensure_dir (p : string) : M unit := os_makedirs p.

Definition now_str (env : Env) : string := now_strftime env.

(** The dict literal [rec] of both loops (lines 65-74 and 123-130). *)
Definition frame_record (env : Env) (i : Z) (fname : string) (t : Q) (w h : Z) : dict :=
  [ ("idx", JInt i);
    ("file", JStr ("frames/" ++ fname));
    ("timestamp_unix", JFloat t);
    ("timestamp_iso", JStr (isoformat env t));
    ("width", JInt w);
    ("height", JInt h) ].

(** What one pass through a [while True] body decides. *)
Inductive ctl := Continue (i : Z) | Break.

Fixpoint while_true (fuel : nat) (body : Z -> M ctl) (i : Z) : M unit :=
  match fuel with
  | O => fun w => (Diverge, w)
  | S fuel' =>
      c <~ body i ;;
      match c with
      | Break => ret tt
      | Continue i' => while_true fuel' body i'
      end
  end.

Definition picamera2_body (env : Env) (a : Args) (frames_dir : string)
    (period t0 : Q) (i : Z) : M ctl :=
  t <~ time_time env ;;
  if (Qgtb (seconds a) 0 && Qgeb (t - t0) (seconds a))%bool then ret Break
  else
    frame <~ cam_capture_array env ;;
    let fname := fmt_06d i ++ ".png" in
    let fpath := os_path_join frames_dir fname in
    let frame_bgr := cvtColor_RGB2BGR frame in
    cv2_imwrite env fpath frame_bgr ;;
    let rec := frame_record env i fname t (width a) (height a) in
    f_write (json_dumps (float_repr env) None rec ++ NL) ;;
    f_flush ;;
    let i := (i + 1)%Z in
    t' <~ time_time env ;;
    let dt := (t' - t)%Q in
    let sleep_t := py_max 0 (period - dt) in
    time_sleep env sleep_t ;;
    ret (Continue i).

Definition picamera2_loop (env : Env) (fuel : nat) (a : Args) : M unit :=
  py_import "picamera2" ;;
  py_import "cv2" ;;
  let out_dir := out a in
  let frames_dir := os_path_join out_dir "frames" in
  ensure_dir frames_dir ;;
  let meta_path := os_path_join out_dir "meta.jsonl" in
  Picamera2_new env ;;
  cam_configure (width a) (height a) ;;
  cam_start ;;
  period <~ truediv 1 (fps a) ;;
  t0 <~ time_time env ;;
  with_file (open_append meta_path)
    (while_true fuel (picamera2_body env a frames_dir period t0) 0%Z) ;;
  cam_stop.

Definition opencv_body (env : Env) (a : Args) (frames_dir : string)
    (period t0 : Q) (i : Z) : M ctl :=
  t <~ time_time env ;;
  if (Qgtb (seconds a) 0 && Qgeb (t - t0) (seconds a))%bool then ret Break
  else
    r <~ cap_read env ;;
    let (ok, read_frame) := r in
    if negb ok then
      print "Frame read failed, stopping." ;;
      ret Break
    else
      match read_frame with
      | None => raise Cv2Error
      | Some frame_bgr =>
          let fname := fmt_06d i ++ ".png" in
          let fpath := os_path_join frames_dir fname in
          cv2_imwrite env fpath frame_bgr ;;
          let h := rows frame_bgr in
          let w := cols frame_bgr in
          let rec := frame_record env i fname t w h in
          f_write (json_dumps (float_repr env) None rec ++ NL) ;;
          f_flush ;;
          let i := (i + 1)%Z in
          t' <~ time_time env ;;
          let dt := (t' - t)%Q in
          time_sleep env (py_max 0 (period - dt)) ;;
          ret (Continue i)
      end.

Definition opencv_loop (env : Env) (fuel : nat) (a : Args) : M unit :=
  py_import "cv2" ;;
  let out_dir := out a in
  let frames_dir := os_path_join out_dir "frames" in
  ensure_dir frames_dir ;;
  let meta_path := os_path_join out_dir "meta.jsonl" in
  cv2_VideoCapture env (device a) ;;
  opened <~ cap_isOpened ;;
  if negb opened
  then raise (RuntimeError ("Could not open camera device " ++ fmt_d (device a)))
  else
    cap_set "CAP_PROP_FRAME_WIDTH" (width a) ;;
    cap_set "CAP_PROP_FRAME_HEIGHT" (height a) ;;
    period <~ truediv 1 (fps a) ;;
    t0 <~ time_time env ;;
    with_file (open_append meta_path)
      (while_true fuel (opencv_body env a frames_dir period t0) 0%Z) ;;
    cap_release.

Definition backend_eqb (x y : backend_t) : bool :=
  match x, y with
  | picamera2, picamera2 | opencv, opencv => true
  | _, _ => false
  end.

Definition backend_name (b : backend_t) : string :=
  match b with picamera2 => "picamera2" | opencv => "opencv" end.

(** [try: body / except KeyboardInterrupt: handler / finally: final]. *)
Definition try_except_finally (body handler final : M unit) : M unit :=
  fun w =>
    match body w with
    | (Ok _, w1) => final w1
    | (Raise KeyboardInterrupt, w1) => (handler ;; final) w1
    | (Raise e, w1) =>
        match final w1 with
        | (Ok _, w2) => (Raise e, w2)
        | other => other
        end
    | (Diverge, w1) => (Diverge, w1)
    end.

(** The dict literal [header] of [main] (lines 156-164). *)
Definition run_header (env : Env) (args : Args) : dict :=
  [ ("created", JStr (now_str env));
    ("backend", JStr (backend_name (backend args)));
    ("fps", JFloat (fps args));
    ("width", JInt (width args));
    ("height", JInt (height args));
    ("seconds", JFloat (seconds args));
    ("device", JInt (device args)) ].

Definition main (env : Env) (fuel : nat) (args : Args) : M unit :=
  let out_dir := out args in
  ensure_dir out_dir ;;
  let header := run_header env args in
  with_file (open_write (os_path_join out_dir "run_header.json"))
    (f_write (json_dumps (float_repr env) (Some 2%nat) header)) ;;
  try_except_finally
    (if backend_eqb (backend args) picamera2
     then picamera2_loop env fuel args
     else opencv_loop env fuel args)
    (print (NL ++ "Stopped by user (Ctrl+C)."))
    (print ("Saved frames under: " ++ abspath env out_dir)).

(** ** One model for both loops

    The two loops differ in three places only: the colour conversion before
    [cv2.imwrite], where the recorded width and height come from, and what a
    failed capture does.  [body_model] is the loop body with these three as
    parameters; both bodies are shown equal to it below, and the run of a
    loop is then described once, by the relation [runs]. *)

Record cycle := mkCycle {
  c_idx : Z;            (* the index [i] of the cycle *)
  c_start : Q;          (* [t], read at the start of the cycle *)
  c_frame : ndarray;    (* what the camera returned *)
  c_end : Q             (* the clock read before the sleep *)
}.

Inductive run_end :=
| EndRunning                  (* the loop is still running *)
| EndExpired (t : Q)          (* [break] on the duration check at time [t] *)
| EndCaptureFailed (t : Q)    (* the capture of the cycle started at [t] failed *)
| EndInterrupted.             (* Ctrl+C during the sleep *)

Definition emits (evs : list event) (w : World) : World :=
  mkWorld (dirs w) (files w) (handle w) (cam w) (trace w ++ evs)
          (n_time w) (n_capture w) (n_sleep w).

(** The events a run has added to a trace. *)
Definition new_events (w w' : World) : list event :=
  drop (length (trace w)) (trace w').

Section Run.
Context (env : Env) (a : Args) (frames_dir meta_path : string) (period t0 : Q).
Context (conv : ndarray -> ndarray) (dims : ndarray -> Z * Z).
Context (fail_exn : option exn) (fail_events : list event).

Definition expired (t : Q) : bool :=
  (Qgtb (seconds a) 0 && Qgeb (t - t0) (seconds a))%bool.

Definition frame_path (i : Z) : string :=
  os_path_join frames_dir (fmt_06d i ++ ".png").

Definition cycle_record (c : cycle) : dict :=
  frame_record env (c_idx c) (fmt_06d (c_idx c) ++ ".png") (c_start c)
               (fst (dims (c_frame c))) (snd (dims (c_frame c))).

Definition cycle_line (c : cycle) : string :=
  json_dumps (float_repr env) None (cycle_record c) ++ NL.

Definition cycle_sleep (c : cycle) : Q :=
  py_max 0 (period - (c_end c - c_start c)).

Definition cycle_events (c : cycle) : list event :=
  [ EvTime (c_start c);
    EvCapture (Some (c_frame c));
    EvImwrite (frame_path (c_idx c)) (conv (c_frame c));
    EvWrite (cycle_line c);
    EvFlush;
    EvTime (c_end c);
    EvSleep (cycle_sleep c) ].

Definition cycle_files (c : cycle) (fs : gmap string string) : gmap string string :=
  let fs1 := <[ frame_path (c_idx c) := png_encode env (conv (c_frame c)) ]> fs in
  <[ meta_path := content fs1 meta_path ++ cycle_line c ]> fs1.

Definition cycle_world (c : cycle) (w : World) : World :=
  mkWorld (dirs w) (cycle_files c (files w)) (Some (meta_path, EmptyString)) (cam w)
          (trace w ++ cycle_events c)
          (S (S (n_time w))) (S (n_capture w)) (S (n_sleep w)).

Definition start_world (w : World) : World :=
  emit (EvTime (clock env (n_time w))) (tick_time w).

Definition failed_world (w : World) : World :=
  emits fail_events (emit (EvCapture None) (tick_capture (start_world w))).

Definition fail_ctl : result ctl :=
  match fail_exn with
  | Some e => Raise e
  | None => Ok Break
  end.

Definition this_cycle (i : Z) (frame : ndarray) (w : World) : cycle :=
  mkCycle i (clock env (n_time w)) frame (clock env (S (n_time w))).

Definition body_model (i : Z) : M ctl :=
  fun w =>
    if expired (clock env (n_time w)) then (Ok Break, start_world w)
    else
      match capture env (n_capture w) with
      | None => (fail_ctl, failed_world w)
      | Some frame =>
          let w' := cycle_world (this_cycle i frame w) w in
          if sigint env (n_sleep w) then (Raise KeyboardInterrupt, w')
          else (Ok (Continue (i + 1)), w')
      end.

Definition end_result (e : run_end) : result unit :=
  match e with
  | EndRunning => Diverge
  | EndExpired _ => Ok tt
  | EndCaptureFailed _ =>
      match fail_exn with
      | Some x => Raise x
      | None => Ok tt
      end
  | EndInterrupted => Raise KeyboardInterrupt
  end.

Definition end_events (e : run_end) : list event :=
  match e with
  | EndRunning | EndInterrupted => []
  | EndExpired t => [EvTime t]
  | EndCaptureFailed t => [EvTime t; EvCapture None] ++ fail_events
  end.

(** [runs fuel i w cs e w']: started with index [i] in world [w], the loop
    completes the cycles [cs], ends as [e] says and leaves world [w']. *)
Inductive runs : nat -> Z -> World -> list cycle -> run_end -> World -> Prop :=
| runs_fuel i w :
    runs 0 i w [] EndRunning w
| runs_expired n i w :
    expired (clock env (n_time w)) = true ->
    runs (S n) i w [] (EndExpired (clock env (n_time w))) (start_world w)
| runs_failed n i w :
    expired (clock env (n_time w)) = false ->
    capture env (n_capture w) = None ->
    runs (S n) i w [] (EndCaptureFailed (clock env (n_time w))) (failed_world w)
| runs_interrupted n i w frame :
    expired (clock env (n_time w)) = false ->
    capture env (n_capture w) = Some frame ->
    sigint env (n_sleep w) = true ->
    runs (S n) i w [this_cycle i frame w] EndInterrupted
         (cycle_world (this_cycle i frame w) w)
| runs_cycle n i w frame cs e w' :
    expired (clock env (n_time w)) = false ->
    capture env (n_capture w) = Some frame ->
    sigint env (n_sleep w) = false ->
    runs n (i + 1) (cycle_world (this_cycle i frame w) w) cs e w' ->
    runs (S n) i w (this_cycle i frame w :: cs) e w'.

(** The lines a list of cycles appends to the metadata log. *)
Definition cycle_lines (cs : list cycle) : string :=
  fold_right String.append EmptyString (map cycle_line cs).
End Run.

(** ** The two loops as runs of the model *)

Definition acquisition_loop (b : backend_t) : Env -> nat -> Args -> M unit :=
  match b with
  | picamera2 => picamera2_loop
  | opencv => opencv_loop
  end.

Definition camera_ok (env : Env) (a : Args) (b : backend_t) : bool :=
  match b with
  | picamera2 => picamera2_ok env
  | opencv => cv2_device_ok env (device a)
  end.

Definition conv_of (b : backend_t) : ndarray -> ndarray :=
  match b with
  | picamera2 => cvtColor_RGB2BGR
  | opencv => fun img => img
  end.

Definition dims_of (a : Args) (b : backend_t) : ndarray -> Z * Z :=
  match b with
  | picamera2 => fun _ => (width a, height a)
  | opencv => fun img => (cols img, rows img)
  end.

Definition fail_exn_of (b : backend_t) : option exn :=
  match b with
  | picamera2 => Some Picamera2Error
  | opencv => None
  end.

Definition fail_events_of (b : backend_t) : list event :=
  match b with
  | picamera2 => []
  | opencv => [EvPrint "Frame read failed, stopping."]
  end.

Definition frames_dir_of (a : Args) : string := os_path_join (out a) "frames".
Definition meta_path_of (a : Args) : string := os_path_join (out a) "meta.jsonl".

(** The world in which [while True] is entered: the frame directory exists,
    the camera runs, [t0] has been read and the log is open for append. *)
Definition loop_start (env : Env) (a : Args) (w : World) : World :=
  mkWorld (dirs w ∪ {[ frames_dir_of a ]})
          (<[ meta_path_of a := content (files w) (meta_path_of a) ]> (files w))
          (Some (meta_path_of a, EmptyString))
          CamRunning
          (trace w ++ [EvTime (clock env (n_time w))])
          (S (n_time w)) (n_capture w) (n_sleep w).

(** What follows the loop: the [with] block closes the log, and unless an
    exception is passing through, the camera is released. *)
Definition loop_finish (r : result unit) (w : World) : World :=
  match r with
  | Ok _ => set_cam CamReleased (set_handle None w)
  | Raise _ => set_handle None w
  | Diverge => w
  end.

(** The world [main] hands to the loop: the output directory exists and the
    run header has been written and closed. *)
Definition header_path (a : Args) : string := os_path_join (out a) "run_header.json".

Definition header_text (env : Env) (a : Args) : string :=
  json_dumps (float_repr env) (Some 2%nat) (run_header env a).

Definition header_world (env : Env) (a : Args) (w : World) : World :=
  mkWorld (dirs w ∪ {[ out a ]})
          (<[ header_path a := header_text env a ]> (files w))
          None (cam w)
          (trace w ++ [EvWrite (header_text env a)])
          (n_time w) (n_capture w) (n_sleep w).

(** ** Reading a trace *)

Definition prints (evs : list event) : list string :=
  omap (fun e => match e with EvPrint s => Some s | _ => None end) evs.

Definition imwrites (evs : list event) : list (string * ndarray) :=
  omap (fun e => match e with EvImwrite p img => Some (p, img) | _ => None end) evs.

Definition writes (evs : list event) : list string :=
  omap (fun e => match e with EvWrite s => Some s | _ => None end) evs.

Definition sleeps (evs : list event) : list Q :=
  omap (fun e => match e with EvSleep d => Some d | _ => None end) evs.

(** Every capture attempt in [evs] comes directly after a clock reading [t]
    for which [P t] holds. *)
Definition capture_guarded (P : Q -> Prop) (evs : list event) : Prop :=
  forall pre r post,
    evs = (pre ++ EvCapture r :: post)%list ->
    exists pre' t, pre = (pre' ++ [EvTime t])%list /\ P t.

(** Every [f.write] in [evs] is directly followed by [f.flush], and only
    then by the clock reading and the sleep that end the cycle. *)
Definition flushed_at_once (evs : list event) : Prop :=
  forall pre s post,
    evs = (pre ++ EvWrite s :: post)%list ->
    exists t d post', post = EvFlush :: EvTime t :: EvSleep d :: post'.

Fixpoint last_char (s : string) : option ascii :=
  match s with
  | EmptyString => None
  | String c EmptyString => Some c
  | String _ s' => last_char s'
  end.

(** The field names of a metadata record as the specification lists them. *)
Definition spec_fields : list string :=
  ["index"; "file"; "timestamp_unix"; "timestamp_iso"; "width"; "height"].

(** The field names the program writes. *)
Definition record_fields : list string :=
  ["idx"; "file"; "timestamp_unix"; "timestamp_iso"; "width"; "height"].

(** Nothing on disk has changed between two worlds. *)
Definition nothing_written (w w' : World) : Prop :=
  files w' = files w /\ dirs w' = dirs w.

(** Reading a string of decimal digits back as a number (leading zeros
    allowed). *)
Definition parse_decimal (s : string) : option N :=
  option_map N.of_uint (NilZero.uint_of_string s).

(** ** Sample surroundings for the examples *)

Definition empty_world : World := mkWorld ∅ ∅ None CamNone [] 0 0 0.

Definition sample_frame (n : nat) : ndarray :=
  mkArray 2 3 [(Z.of_nat n, 1, 2)%Z].

(** The clock advances by 1/10 s per reading; [ncap] captures succeed and the
    next one fails; Ctrl+C arrives during the sleep of cycle [nint], if any. *)
Definition sample_env (ncap : nat) (nint : option nat) : Env :=
  mkEnv (fun n => (Z.of_nat n # 10)%Q)
        true
        (fun _ => true)
        (fun n => if (n <? ncap)%nat then Some (sample_frame n) else None)
        (fun n => match nint with Some k => (n =? k)%nat | None => false end)
        "20260101_120000"
        (fun t => "T" ++ fmt_d (Qnum t))
        (fun x => let tenths := (Qnum x * 10 / Zpos (Qden x))%Z in
                  fmt_d (tenths / 10) ++ "." ++ fmt_d (tenths mod 10))
        (fun img => "PNG" ++ fmt_d (rows img) ++ "x" ++ fmt_d (cols img))
        (fun p => "/home/pi/" ++ p).

(** The same, with no camera to open. *)
Definition no_camera_env : Env :=
  mkEnv (clock (sample_env 0 None)) false (fun _ => false)
        (capture (sample_env 0 None)) (sigint (sample_env 0 None))
        (now_strftime (sample_env 0 None)) (isoformat (sample_env 0 None))
        (float_repr (sample_env 0 None)) (png_encode (sample_env 0 None))
        (abspath (sample_env 0 None)).

Definition sample_args (b : backend_t) (f s : Q) : Args :=
  mkArgs "data/run_001" f 1280 720 s b 0.

(** A camera that keeps pace: cycle [k] starts [k]/10 s after [t0] and its
    work takes 1/20 s; every capture succeeds and nobody interrupts. *)
Definition paced_env : Env :=
  mkEnv (fun n => match n with
                  | O => 0%Q
                  | S m => ((Z.of_nat (m / 2) # 10)
                            + (if Nat.odd m then 1 # 20 else 0))%Q
                  end)
        true
        (fun _ => true)
        (fun n => Some (sample_frame n))
        (fun _ => false)
        (now_strftime (sample_env 0 None)) (isoformat (sample_env 0 None))
        (float_repr (sample_env 0 None)) (png_encode (sample_env 0 None))
        (abspath (sample_env 0 None)).

(** The exception a loop function raises when its camera does not open. *)
Definition open_error (a : Args) (b : backend_t) : exn :=
  match b with
  | picamera2 => Picamera2Error
  | opencv => RuntimeError ("Could not open camera device " ++ fmt_d (device a))
  end.

(** * Properties *)

Local Open Scope list_scope.

(** ** Comparisons and [max] *)

Lemma Qgtb_true (x y : Q) : Qgtb x y = true <-> (y < x)%Q.
Proof.
  unfold Qgtb. rewrite negb_true_iff, <- not_true_iff_false, Qle_bool_iff.
  split; [apply Qnot_le_lt | apply Qlt_not_le].
Qed.

Lemma Qgtb_false (x y : Q) : Qgtb x y = false <-> (x <= y)%Q.
Proof. unfold Qgtb. rewrite negb_false_iff. apply Qle_bool_iff. Qed.

Lemma Qgeb_true (x y : Q) : Qgeb x y = true <-> (y <= x)%Q.
Proof. unfold Qgeb. apply Qle_bool_iff. Qed.

Lemma Qgeb_false (x y : Q) : Qgeb x y = false <-> (x < y)%Q.
Proof.
  unfold Qgeb. rewrite <- not_true_iff_false, Qle_bool_iff.
  split; [apply Qnot_le_lt | apply Qlt_not_le].
Qed.

Lemma py_max_nonneg (x : Q) : (0 <= py_max 0 x)%Q.
Proof.
  unfold py_max. destruct (Qgtb x 0) eqn:E.
  - apply Qgtb_true in E. lra.
  - lra.
Qed.

Lemma py_max_sleepable (x : Q) : Qgtb 0 (py_max 0 x) = false.
Proof. apply Qgtb_false, py_max_nonneg. Qed.

Lemma py_max_zero (x : Q) : (x <= 0)%Q -> py_max 0 x = 0%Q.
Proof.
  intros H. unfold py_max. destruct (Qgtb x 0) eqn:E; [|reflexivity].
  apply Qgtb_true in E. lra.
Qed.

Lemma py_max_pos (x : Q) : (0 < x)%Q -> py_max 0 x = x.
Proof.
  intros H. unfold py_max. destruct (Qgtb x 0) eqn:E; [reflexivity|].
  apply Qgtb_false in E. lra.
Qed.

(** ** Both loop bodies are instances of [body_model] *)

#[local] Arguments json_dumps : simpl never.
#[local] Arguments frame_record : simpl never.
#[local] Arguments os_path_join : simpl never.
#[local] Arguments fmt_06d : simpl never.
#[local] Arguments py_max : simpl never.
#[local] Arguments content : simpl never.

Ltac run_primitives :=
  unfold bind, time_time, cam_capture_array, cap_read, cv2_imwrite, f_write,
    f_flush, flush_world, time_sleep, print, ret, emit, emits, tick_time,
    tick_capture, tick_sleep, set_files, set_handle; simpl.

Lemma picamera2_body_model env a fd meta period t0 i w :
  handle w = Some (meta, EmptyString) ->
  picamera2_body env a fd period t0 i w =
  body_model env a fd meta period t0 cvtColor_RGB2BGR
             (fun _ => (width a, height a)) (Some Picamera2Error) [] i w.
Proof.
  destruct w as [ds fs h c tr nt nc ns]; simpl; intros ->.
  unfold picamera2_body, body_model, expired, start_world, failed_world,
    cycle_world, cycle_events, cycle_files, cycle_sleep, cycle_line, cycle_record,
    frame_path, this_cycle, fail_ctl.
  run_primitives.
  destruct (Qgtb (seconds a) 0 && Qgeb (clock env nt - t0) (seconds a))%bool;
    [reflexivity|].
  destruct (capture env nc) as [frame|] eqn:Hc; simpl; rewrite ?Hc; simpl.
  - rewrite py_max_sleepable, <- !app_assoc; simpl.
    destruct (sigint env ns); reflexivity.
  - rewrite app_nil_r. reflexivity.
Qed.

Lemma opencv_body_model env a fd meta period t0 i w :
  handle w = Some (meta, EmptyString) ->
  opencv_body env a fd period t0 i w =
  body_model env a fd meta period t0 (fun img => img)
             (fun img => (cols img, rows img)) None
             [EvPrint "Frame read failed, stopping."] i w.
Proof.
  destruct w as [ds fs h c tr nt nc ns]; simpl; intros ->.
  unfold opencv_body, body_model, expired, start_world, failed_world,
    cycle_world, cycle_events, cycle_files, cycle_sleep, cycle_line, cycle_record,
    frame_path, this_cycle, fail_ctl.
  run_primitives.
  destruct (Qgtb (seconds a) 0 && Qgeb (clock env nt - t0) (seconds a))%bool;
    [reflexivity|].
  destruct (capture env nc) as [frame|] eqn:Hc; simpl; rewrite ?Hc; simpl.
  - rewrite py_max_sleepable, <- !app_assoc; simpl.
    destruct (sigint env ns); reflexivity.
  - rewrite <- !app_assoc. reflexivity.
Qed.

(** ** Runs of the model loop *)

Lemma append_cons (c : ascii) (s t : string) : String c s +:+ t = String c (s +:+ t).
Proof. reflexivity. Qed.

Lemma append_empty_l (s : string) : EmptyString +:+ s = s.
Proof. reflexivity. Qed.

Lemma append_empty_r (s : string) : s +:+ EmptyString = s.
Proof.
  induction s as [|c s IH]; [reflexivity|]. now rewrite append_cons, IH.
Qed.

Lemma append_assoc (s1 s2 s3 : string) : (s1 +:+ s2) +:+ s3 = s1 +:+ (s2 +:+ s3).
Proof.
  induction s1 as [|c s1 IH]; [reflexivity|]. now rewrite !append_cons, IH.
Qed.

Section RunFacts.
Context (env : Env) (a : Args) (fd meta : string) (period t0 : Q).
Context (conv : ndarray -> ndarray) (dims : ndarray -> Z * Z).
Context (fail_exn : option exn) (fail_events : list event).

Local Abbreviation model := (body_model env a fd meta period t0 conv dims fail_exn fail_events).
Local Abbreviation Runs := (runs env a fd meta period t0 conv dims fail_events).
Local Abbreviation events_of := (cycle_events env fd period conv dims).
Local Abbreviation files_of := (cycle_files env fd meta conv dims).
Local Abbreviation world_of := (cycle_world env fd meta period conv dims).

Lemma while_true_runs fuel : forall i w,
  exists cs e w',
    while_true fuel model i w = (end_result fail_exn e, w') /\ Runs fuel i w cs e w'.
Proof.
  induction fuel as [|fuel IH]; intros i w.
  - exists [], EndRunning, w. split; [reflexivity | constructor].
  - simpl. unfold bind, body_model.
    destruct (expired a t0 (clock env (n_time w))) eqn:Hx.
    { exists [], (EndExpired (clock env (n_time w))), (start_world env w).
      split; [reflexivity | now constructor]. }
    destruct (capture env (n_capture w)) as [frame|] eqn:Hc.
    2:{ exists [], (EndCaptureFailed (clock env (n_time w))),
          (failed_world env fail_events w).
        split; [| now constructor].
        unfold fail_ctl, end_result. now destruct fail_exn. }
    destruct (sigint env (n_sleep w)) eqn:Hs.
    { eexists _, EndInterrupted, _. split; [reflexivity | now constructor]. }
    destruct (IH (i + 1)%Z (world_of (this_cycle env i frame w) w))
      as (cs & e & w' & Hrun & HR).
    exists (this_cycle env i frame w :: cs), e, w'.
    split; [exact Hrun | now constructor].
Qed.

(** A body that agrees with the model while the log is open and flushed
    runs like the model. *)
Lemma while_true_model (body : Z -> M ctl) :
  (forall i w, handle w = Some (meta, EmptyString) -> body i w = model i w) ->
  forall fuel i w, handle w = Some (meta, EmptyString) ->
    while_true fuel body i w = while_true fuel model i w.
Proof.
  intros Hb. induction fuel as [|fuel IH]; intros i w Hh; [reflexivity|].
  simpl. unfold bind. rewrite (Hb i w Hh). unfold body_model.
  destruct (expired a t0 (clock env (n_time w))); [reflexivity|].
  destruct (capture env (n_capture w)) as [frame|];
    [|unfold fail_ctl; destruct fail_exn; reflexivity].
  destruct (sigint env (n_sleep w)); [reflexivity|].
  apply IH. reflexivity.
Qed.

Lemma runs_trace fuel i w cs e w' :
  Runs fuel i w cs e w' ->
  trace w' = trace w ++ flat_map events_of cs ++ end_events fail_events e.
Proof.
  induction 1 as [i w|n i w Hx|n i w Hx Hc|n i w frame Hx Hc Hs
                 |n i w frame cs e w' Hx Hc Hs HR IH]; simpl.
  - now rewrite app_nil_r.
  - reflexivity.
  - now rewrite <- !app_assoc.
  - reflexivity.
  - rewrite IH. simpl. now rewrite <- !app_assoc.
Qed.

Lemma runs_handle fuel i w cs e w' :
  Runs fuel i w cs e w' ->
  handle w = Some (meta, EmptyString) -> handle w' = Some (meta, EmptyString).
Proof. induction 1; simpl; auto. Qed.

Lemma runs_cam fuel i w cs e w' : Runs fuel i w cs e w' -> cam w' = cam w.
Proof. induction 1; simpl; auto. Qed.

Lemma runs_dirs fuel i w cs e w' : Runs fuel i w cs e w' -> dirs w' = dirs w.
Proof. induction 1; simpl; auto. Qed.

Lemma runs_files fuel i w cs e w' :
  Runs fuel i w cs e w' ->
  files w' = foldl (fun fs c => files_of c fs) (files w) cs.
Proof. induction 1; simpl; auto. Qed.

Lemma runs_length fuel i w cs e w' :
  Runs fuel i w cs e w' -> (length cs <= fuel)%nat.
Proof. induction 1; simpl; lia. Qed.

(** The [j]-th completed cycle has index [i + j]; its two clock readings
    and its frame are the ones the environment supplies in that order, and
    its start time passed the duration check. *)
Lemma runs_cycle_at fuel i w cs e w' :
  Runs fuel i w cs e w' ->
  forall (j : nat) (c : cycle), cs !! j = Some c ->
    c_idx c = (i + Z.of_nat j)%Z /\
    c_start c = clock env (n_time w + 2 * j) /\
    c_end c = clock env (n_time w + 2 * j + 1) /\
    capture env (n_capture w + j) = Some (c_frame c) /\
    expired a t0 (c_start c) = false.
Proof.
  induction 1 as [i w|n i w Hx|n i w Hx Hc|n i w frame Hx Hc Hs
                 |n i w frame cs e w' Hx Hc Hs HR IH]; intros j c Hj;
    try discriminate.
  - destruct j as [|j]; [|discriminate]. injection Hj as <-. simpl.
    rewrite !Nat.add_0_r, Z.add_0_r, Nat.add_1_r. auto.
  - destruct j as [|j].
    + injection Hj as <-. simpl.
      rewrite !Nat.add_0_r, Z.add_0_r, Nat.add_1_r. auto.
    + destruct (IH j c Hj) as (H1 & H2 & H3 & H4 & H5).
      repeat split.
      * rewrite H1. lia.
      * rewrite H2. f_equal. simpl. lia.
      * rewrite H3. f_equal. simpl. lia.
      * rewrite <- H4. f_equal. simpl. lia.
      * exact H5.
Qed.

(** How a run ends. *)
Lemma runs_end fuel i w cs e w' :
  Runs fuel i w cs e w' ->
  match e with
  | EndRunning =>
      length cs = fuel /\
      forall j, (j < fuel)%nat -> sigint env (n_sleep w + j) = false
  | EndExpired t =>
      t = clock env (n_time w + 2 * length cs) /\ expired a t0 t = true
  | EndCaptureFailed t =>
      t = clock env (n_time w + 2 * length cs) /\ expired a t0 t = false /\
      capture env (n_capture w + length cs) = None /\ (length cs < fuel)%nat
  | EndInterrupted =>
      exists n, length cs = S n /\ sigint env (n_sleep w + n) = true
  end.
Proof.
  induction 1 as [i w|n i w Hx|n i w Hx Hc|n i w frame Hx Hc Hs
                 |n i w frame cs e w' Hx Hc Hs HR IH]; simpl.
  - split; [reflexivity | lia].
  - rewrite Nat.add_0_r. auto.
  - rewrite !Nat.add_0_r. repeat split; auto. lia.
  - exists 0%nat. rewrite Nat.add_0_r. auto.
  - destruct e; simpl in IH.
    + destruct IH as [IH1 IH2]. split; [now rewrite IH1|].
      intros [|j] Hj; [now rewrite Nat.add_0_r|].
      replace (n_sleep w + S j)%nat with (S (n_sleep w) + j)%nat by lia.
      apply IH2. lia.
    + destruct IH as [IH1 IH2]. split; [|exact IH2].
      rewrite IH1. f_equal. lia.
    + destruct IH as (IH1 & IH2 & IH3 & IH4). repeat split; auto.
      * rewrite IH1. f_equal. lia.
      * rewrite <- IH3. f_equal. lia.
      * lia.
    + destruct IH as (m & IH1 & IH2). exists (S m). split; [now rewrite IH1|].
      rewrite <- IH2. f_equal. lia.
Qed.

(** Without a positive duration, a run over which every capture succeeds
    and no interrupt arrives is still running when the fuel is spent. *)
Lemma runs_unbounded fuel i w cs e w' :
  Runs fuel i w cs e w' ->
  (forall t, expired a t0 t = false) ->
  (forall j, (j < fuel)%nat ->
     capture env (n_capture w + j) <> None /\ sigint env (n_sleep w + j) = false) ->
  e = EndRunning /\ length cs = fuel.
Proof.
  intros HR Hno.
  induction HR as [i w|n i w Hx|n i w Hx Hc|n i w frame Hx Hc Hs
                  |n i w frame cs e w' Hx Hc Hs HR IH]; intros Hok.
  - auto.
  - rewrite Hno in Hx. discriminate.
  - destruct (Hok 0%nat) as [H1 _]; [lia|]. rewrite Nat.add_0_r in H1. contradiction.
  - destruct (Hok 0%nat) as [_ H1]; [lia|]. rewrite Nat.add_0_r in H1. congruence.
  - destruct IH as [-> IH].
    + intros j Hj. destruct (Hok (S j)) as [H1 H2]; [lia|]. simpl.
      rewrite Nat.add_succ_r in H1, H2. auto.
    + simpl. auto.
Qed.
End RunFacts.

(** ** Files touched by a run *)

Lemma last_char_append (s t : string) :
  t <> EmptyString -> last_char (s +:+ t) = last_char t.
Proof.
  intros Ht. induction s as [|c s IH]; [reflexivity|].
  rewrite append_cons. simpl. rewrite IH.
  destruct (s +:+ t) eqn:E; [|reflexivity].
  destruct s; [|discriminate]. now rewrite append_empty_l in E.
Qed.

Lemma last_char_join (p q : string) :
  q <> EmptyString -> last_char (os_path_join p q) = last_char q.
Proof.
  intros Hq. unfold os_path_join.
  destruct (starts_with_slash q); [reflexivity|].
  destruct (String.eqb p EmptyString || ends_with_slash p)%bool.
  - now apply last_char_append.
  - rewrite last_char_append; [now apply (last_char_append "/")|].
    now destruct q.
Qed.

Lemma frame_path_not_meta (a : Args) (i : Z) :
  frame_path (frames_dir_of a) i <> meta_path_of a.
Proof.
  intros E. apply (f_equal last_char) in E.
  unfold frame_path, meta_path_of in E.
  rewrite !last_char_join in E; [| discriminate | now destruct (fmt_06d i)].
  rewrite (last_char_append (fmt_06d i) ".png") in E; discriminate.
Qed.

Lemma content_insert (fs : gmap string string) (p : string) (s : string) :
  content (<[ p := s ]> fs) p = s.
Proof. unfold content. now rewrite lookup_insert_eq. Qed.

Lemma content_insert_ne (fs : gmap string string) (p q : string) (s : string) :
  p <> q -> content (<[ p := s ]> fs) q = content fs q.
Proof. intros H. unfold content. now rewrite lookup_insert_ne. Qed.

Section FileFacts.
Context (env : Env) (a : Args) (conv : ndarray -> ndarray) (dims : ndarray -> Z * Z).

Local Abbreviation files_of :=
  (cycle_files env (frames_dir_of a) (meta_path_of a) conv dims).

(** The cycles of a run append their lines to the log and change nothing
    else in it. *)
Lemma cycles_append_lines (cs : list cycle) : forall fs : gmap string string,
  content (foldl (fun fs c => files_of c fs) fs cs) (meta_path_of a) =
  content fs (meta_path_of a) +:+ cycle_lines env dims cs.
Proof.
  induction cs as [|c cs IH]; intros fs; simpl.
  - unfold cycle_lines. simpl. now rewrite append_empty_r.
  - rewrite IH. unfold cycle_files.
    rewrite content_insert, content_insert_ne by apply frame_path_not_meta.
    unfold cycle_lines. simpl. now rewrite append_assoc.
Qed.

Lemma cycles_keep_log (cs : list cycle) : forall fs : gmap string string,
  is_Some (fs !! meta_path_of a) ->
  is_Some (foldl (fun fs c => files_of c fs) fs cs !! meta_path_of a).
Proof.
  induction cs as [|c cs IH]; intros fs H; simpl; [exact H|].
  apply IH. unfold cycle_files. rewrite lookup_insert_eq. eauto.
Qed.
End FileFacts.

Lemma flush_world_clean (w : World) (p : string) :
  handle w = Some (p, EmptyString) -> is_Some (files w !! p) -> flush_world w = w.
Proof.
  destruct w as [ds fs h c tr nt nc ns]; simpl. intros -> [x Hx].
  unfold flush_world, set_handle, set_files; simpl.
  rewrite append_empty_r. unfold content. rewrite Hx; simpl.
  now rewrite insert_id.
Qed.

(** ** The three ways a loop function can go *)

Lemma close_after_run env a b fuel i w cs e w' :
  runs env a (frames_dir_of a) (meta_path_of a) (1 / fps a) (clock env (n_time w))
       (conv_of b) (dims_of a b) (fail_events_of b) fuel i (loop_start env a w) cs e w' ->
  flush_world w' = w'.
Proof.
  intros HR. apply (flush_world_clean _ (meta_path_of a)).
  - now apply (runs_handle _ _ _ _ _ _ _ _ _ _ _ _ _ _ _ HR).
  - rewrite (runs_files _ _ _ _ _ _ _ _ _ _ _ _ _ _ _ HR).
    apply cycles_keep_log. simpl. rewrite lookup_insert_eq. eauto.
Qed.

Lemma loop_cases (b : backend_t) (env : Env) (fuel : nat) (a : Args) (w : World) :
  (camera_ok env a b = false /\
   exists w', acquisition_loop b env fuel a w = (Raise (open_error a b), w') /\
     files w' = files w /\ trace w' = trace w /\
     dirs w' = dirs w ∪ {[ frames_dir_of a ]}) \/
  (camera_ok env a b = true /\ (fps a == 0)%Q /\
   exists w', acquisition_loop b env fuel a w = (Raise ZeroDivisionError, w') /\
     files w' = files w /\ trace w' = trace w /\
     dirs w' = dirs w ∪ {[ frames_dir_of a ]} /\ cam w' = CamRunning) \/
  (camera_ok env a b = true /\ ~ (fps a == 0)%Q /\
   exists cs e w1,
     runs env a (frames_dir_of a) (meta_path_of a) (1 / fps a) (clock env (n_time w))
          (conv_of b) (dims_of a b) (fail_events_of b) fuel 0 (loop_start env a w) cs e w1 /\
     acquisition_loop b env fuel a w =
       (end_result (fail_exn_of b) e, loop_finish (end_result (fail_exn_of b) e) w1)).
Proof.
  destruct (camera_ok env a b) eqn:Hcam.
  2:{ left. split; [reflexivity|].
      destruct b; simpl in Hcam.
      - eexists. unfold acquisition_loop, picamera2_loop, py_import, ret, bind, ensure_dir,
          os_makedirs, Picamera2_new; simpl. rewrite Hcam.
        split; [reflexivity|]. simpl. auto.
      - eexists. unfold acquisition_loop, opencv_loop, py_import, ret, bind, ensure_dir,
          os_makedirs, cv2_VideoCapture, cap_isOpened; simpl. rewrite Hcam. simpl.
        split; [reflexivity|]. simpl. auto. }
  right.
  destruct (Qeq_bool (fps a) 0) eqn:Hfps.
  { left. split; [reflexivity|]. split; [now apply Qeq_bool_iff|].
    destruct b; simpl in Hcam; eexists.
    - unfold acquisition_loop, picamera2_loop, py_import, ret, bind, ensure_dir, os_makedirs,
        Picamera2_new, cam_configure, cam_start, truediv, ret, raise; simpl.
      rewrite Hcam, Hfps. split; [reflexivity|]. simpl. auto.
    - unfold acquisition_loop, opencv_loop, py_import, ret, bind, ensure_dir, os_makedirs,
        cv2_VideoCapture, cap_isOpened, cap_set, truediv, ret, raise; simpl.
      rewrite Hcam; simpl. rewrite Hfps. split; [reflexivity|]. simpl. auto. }
  right. split; [reflexivity|]. split.
  { intros H. apply Qeq_bool_iff in H. congruence. }
  destruct (while_true_runs env a (frames_dir_of a) (meta_path_of a) (1 / fps a)
              (clock env (n_time w)) (conv_of b) (dims_of a b) (fail_exn_of b)
              (fail_events_of b) fuel 0%Z (loop_start env a w))
    as (cs & e & w1 & Hrun & HR).
  exists cs, e, w1. split; [exact HR|].
  pose proof (close_after_run _ _ _ _ _ _ _ _ _ HR) as Hclose.
  destruct b; simpl in Hcam.
  - unfold acquisition_loop, picamera2_loop, py_import, ret, bind, ensure_dir, os_makedirs,
      Picamera2_new, cam_configure, cam_start, truediv, ret, raise, time_time,
      with_file, open_append, cam_stop; simpl.
    rewrite Hcam, Hfps; simpl.
    change (set_handle (Some _) _) with (loop_start env a w).
    rewrite (while_true_model env a (frames_dir_of a) (meta_path_of a) (1 / fps a)
               (clock env (n_time w)) cvtColor_RGB2BGR (fun _ => (width a, height a))
               (Some Picamera2Error) [] _
               (fun i w => picamera2_body_model env a _ _ _ _ i w)) by reflexivity.
    simpl in Hrun. rewrite Hrun, Hclose.
    destruct e; reflexivity.
  - unfold acquisition_loop, opencv_loop, py_import, ret, bind, ensure_dir, os_makedirs,
      cv2_VideoCapture, cap_isOpened, cap_set, truediv, ret, raise, time_time,
      with_file, open_append, cap_release; simpl.
    rewrite Hcam; simpl. rewrite Hfps; simpl.
    change (set_handle (Some _) _) with (loop_start env a w).
    rewrite (while_true_model env a (frames_dir_of a) (meta_path_of a) (1 / fps a)
               (clock env (n_time w)) (fun img => img) (fun img => (cols img, rows img))
               None [EvPrint "Frame read failed, stopping."] _
               (fun i w => opencv_body_model env a _ _ _ _ i w)) by reflexivity.
    simpl in Hrun. rewrite Hrun, Hclose.
    destruct e; reflexivity.
Qed.

(** ** What a run adds to the trace *)

Section TraceFacts.
Context (env : Env) (fd : string) (period : Q).
Context (conv : ndarray -> ndarray) (dims : ndarray -> Z * Z).

Local Abbreviation events_of := (cycle_events env fd period conv dims).

Lemma imwrites_cycles (cs : list cycle) :
  imwrites (flat_map events_of cs) =
  map (fun c => (frame_path fd (c_idx c), conv (c_frame c))) cs.
Proof.
  induction cs as [|c cs IH]; [reflexivity|].
  simpl. unfold imwrites in *. simpl. now rewrite IH.
Qed.

Lemma writes_cycles (cs : list cycle) :
  writes (flat_map events_of cs) = map (cycle_line env dims) cs.
Proof.
  induction cs as [|c cs IH]; [reflexivity|].
  simpl. unfold writes in *. simpl. now rewrite IH.
Qed.

Lemma sleeps_cycles (cs : list cycle) :
  sleeps (flat_map events_of cs) = map (cycle_sleep period) cs.
Proof.
  induction cs as [|c cs IH]; [reflexivity|].
  simpl. unfold sleeps in *. simpl. now rewrite IH.
Qed.
End TraceFacts.

Lemma end_events_quiet (b : backend_t) (e : run_end) :
  imwrites (end_events (fail_events_of b) e) = [] /\
  writes (end_events (fail_events_of b) e) = [] /\
  sleeps (end_events (fail_events_of b) e) = [].
Proof. destruct e, b; repeat split; reflexivity. Qed.

Lemma new_events_app (w w' : World) (evs : list event) :
  trace w' = trace w ++ evs -> new_events w w' = evs.
Proof. intros H. unfold new_events. rewrite H. apply drop_app_length. Qed.

(** Either the loop is never entered and the trace is untouched, or the
    trace grows by the reading of [t0], the completed cycles and the events
    of the ending. *)
Lemma loop_trace (b : backend_t) (env : Env) (fuel : nat) (a : Args) (w : World) :
  (exists x, fst (acquisition_loop b env fuel a w) = Raise x /\
     (camera_ok env a b = false \/ (fps a == 0)%Q) /\
     files (snd (acquisition_loop b env fuel a w)) = files w /\
     new_events w (snd (acquisition_loop b env fuel a w)) = []) \/
  (camera_ok env a b = true /\ ~ (fps a == 0)%Q /\
   exists cs e w1,
     runs env a (frames_dir_of a) (meta_path_of a) (1 / fps a) (clock env (n_time w))
          (conv_of b) (dims_of a b) (fail_events_of b) fuel 0 (loop_start env a w) cs e w1 /\
     acquisition_loop b env fuel a w =
       (end_result (fail_exn_of b) e, loop_finish (end_result (fail_exn_of b) e) w1) /\
     new_events w (snd (acquisition_loop b env fuel a w)) =
       EvTime (clock env (n_time w)) ::
       flat_map (cycle_events env (frames_dir_of a) (1 / fps a) (conv_of b) (dims_of a b)) cs
       ++ end_events (fail_events_of b) e).
Proof.
  destruct (loop_cases b env fuel a w)
    as [(Hcam & w' & HL & Hf & Ht & _)
       |[(Hcam & Hfps & w' & HL & Hf & Ht & _)
        |(Hcam & Hfps & cs & e & w1 & HR & HL)]].
  - left. exists (open_error a b). rewrite HL. simpl. split; [reflexivity|].
    split; [now left|]. split; [exact Hf|].
    apply new_events_app. now rewrite app_nil_r.
  - left. exists ZeroDivisionError. rewrite HL. simpl. split; [reflexivity|].
    split; [now right|]. split; [exact Hf|].
    apply new_events_app. now rewrite app_nil_r.
  - right. split; [exact Hcam|]. split; [exact Hfps|].
    exists cs, e, w1. split; [exact HR|]. split; [exact HL|].
    rewrite HL. simpl. apply new_events_app.
    replace (trace (loop_finish (end_result (fail_exn_of b) e) w1)) with (trace w1)
      by (now destruct (end_result (fail_exn_of b) e)).
    rewrite (runs_trace _ _ _ _ _ _ _ _ _ _ _ _ _ _ _ HR). simpl.
    now rewrite <- app_assoc.
Qed.

Lemma runs_indices env a fd meta period t0 conv dims fail_events fuel i w cs e w' :
  runs env a fd meta period t0 conv dims fail_events fuel i w cs e w' ->
  map c_idx cs = map (fun j => (i + Z.of_nat j)%Z) (seq 0 (length cs)).
Proof.
  induction 1 as [i w|n i w Hx|n i w Hx Hc|n i w frame Hx Hc Hs
                 |n i w frame cs e w' Hx Hc Hs HR IH]; try reflexivity.
  - simpl. now rewrite Z.add_0_r.
  - simpl. rewrite Z.add_0_r. f_equal.
    rewrite IH, <- seq_shift, map_map. apply map_ext. intros j. lia.
Qed.

Lemma shape_projections env fd period conv dims (b : backend_t) (t : Q)
    (cs : list cycle) (e : run_end) :
  let evs := EvTime t :: flat_map (cycle_events env fd period conv dims) cs
                         ++ end_events (fail_events_of b) e in
  imwrites evs = map (fun c => (frame_path fd (c_idx c), conv (c_frame c))) cs /\
  writes evs = map (cycle_line env dims) cs /\
  sleeps evs = map (cycle_sleep period) cs.
Proof.
  destruct (end_events_quiet b e) as (E1 & E2 & E3). simpl.
  split; [|split].
  - change (imwrites (EvTime ?t :: ?l)) with (imwrites l).
    unfold imwrites. rewrite omap_app. fold (imwrites (end_events (fail_events_of b) e)).
    rewrite E1, app_nil_r. apply imwrites_cycles.
  - change (writes (EvTime ?t :: ?l)) with (writes l).
    unfold writes. rewrite omap_app. fold (writes (end_events (fail_events_of b) e)).
    rewrite E2, app_nil_r. apply writes_cycles.
  - change (sleeps (EvTime ?t :: ?l)) with (sleeps l).
    unfold sleeps. rewrite omap_app. fold (sleeps (end_events (fail_events_of b) e)).
    rewrite E3, app_nil_r. apply sleeps_cycles.
Qed.

(** The saved frames, the appended records and the sleeps of a run, cycle by
    cycle. *)
Lemma loop_projections (b : backend_t) (env : Env) (fuel : nat) (a : Args) (w : World) :
  exists cs : list cycle,
    let evs := new_events w (snd (acquisition_loop b env fuel a w)) in
    imwrites evs =
      map (fun c => (frame_path (frames_dir_of a) (c_idx c), conv_of b (c_frame c))) cs /\
    writes evs = map (cycle_line env (dims_of a b)) cs /\
    sleeps evs = map (cycle_sleep (1 / fps a)) cs /\
    map c_idx cs = map Z.of_nat (seq 0 (length cs)) /\
    (forall (j : nat) (c : cycle), cs !! j = Some c ->
       c_start c = clock env (n_time w + 1 + 2 * j) /\
       c_end c = clock env (n_time w + 2 + 2 * j)).
Proof.
  destruct (loop_trace b env fuel a w)
    as [(x & _ & _ & _ & Hev)|(_ & _ & cs & e & w1 & HR & _ & Hev)].
  - exists []. simpl. rewrite Hev.
    split; [|split; [|split; [|split]]]; try reflexivity.
    intros j c H. now rewrite lookup_nil in H.
  - exists cs. simpl. rewrite Hev.
    destruct (shape_projections env (frames_dir_of a) (1 / fps a) (conv_of b)
                (dims_of a b) b (clock env (n_time w)) cs e) as (E1 & E2 & E3).
    split; [exact E1|]. split; [exact E2|]. split; [exact E3|].
    split; [|intros j c H; split].
    + rewrite (runs_indices _ _ _ _ _ _ _ _ _ _ _ _ _ _ _ HR).
      apply map_ext. intros j. lia.
    + destruct (runs_cycle_at _ _ _ _ _ _ _ _ _ _ _ _ _ _ _ HR j c H)
        as (_ & H2 & _). rewrite H2. simpl. f_equal. lia.
    + destruct (runs_cycle_at _ _ _ _ _ _ _ _ _ _ _ _ _ _ _ HR j c H)
        as (_ & _ & H3 & _). rewrite H3. simpl. f_equal. lia.
Qed.

(** ** Zero-padded frame numbers *)

Lemma length_zeros (n : nat) : String.length (zeros n) = n.
Proof. induction n as [|n IH]; simpl; [reflexivity | now rewrite IH]. Qed.

Lemma length_append (s t : string) :
  String.length (s +:+ t) = (String.length s + String.length t)%nat.
Proof.
  induction s as [|c s IH]; [reflexivity|]. rewrite append_cons. simpl. now rewrite IH.
Qed.

Lemma abs_N_of_nat (k : nat) : Z.abs_N (Z.of_nat k) = N.of_nat k.
Proof. rewrite <- nat_N_Z. apply Zabs2N.id. Qed.

Lemma fmt_06d_of_nat (k : nat) :
  fmt_06d (Z.of_nat k) =
  zeros (6 - String.length (digits (N.of_nat k))) +:+ digits (N.of_nat k).
Proof.
  unfold fmt_06d. rewrite abs_N_of_nat.
  destruct (Z.of_nat k <? 0)%Z eqn:E; [|reflexivity].
  apply Z.ltb_lt in E. lia.
Qed.

Lemma parse_zeros (n : nat) (s : string) (d : Decimal.uint) :
  s <> EmptyString ->
  NilEmpty.uint_of_string s = Some d ->
  parse_decimal (zeros n +:+ s) = Some (N.of_uint d).
Proof.
  intros Hs Hd. unfold parse_decimal.
  assert (H : exists d', NilEmpty.uint_of_string (zeros n +:+ s) = Some d' /\
                         N.of_uint d' = N.of_uint d).
  { induction n as [|n (d' & H1 & H2)]; [now exists d|].
    exists (Decimal.D0 d'). simpl zeros. rewrite append_cons. simpl. rewrite H1.
    split; [reflexivity | exact H2]. }
  destruct H as (d' & H1 & H2).
  unfold NilZero.uint_of_string.
  destruct (zeros n +:+ s) eqn:E.
  - destruct n; [now rewrite append_empty_l in E | discriminate].
  - rewrite H1. simpl. now rewrite H2.
Qed.

Lemma parse_fmt_06d (k : nat) : parse_decimal (fmt_06d (Z.of_nat k)) = Some (N.of_nat k).
Proof.
  rewrite fmt_06d_of_nat. unfold digits, NilZero.string_of_uint.
  assert (Hnil : N.to_uint (N.of_nat k) <> Decimal.Nil).
  { destruct (N.of_nat k) as [|p]; [discriminate|]. simpl.
    intros E. apply (f_equal Pos.of_uint) in E.
    rewrite DecimalPos.Unsigned.of_to in E. simpl in E. discriminate E. }
  assert (Hz : NilZero.string_of_uint (N.to_uint (N.of_nat k)) =
               NilEmpty.string_of_uint (N.to_uint (N.of_nat k))).
  { unfold NilZero.string_of_uint.
    destruct (N.to_uint (N.of_nat k)); [contradiction | reflexivity ..]. }
  assert (Hne : NilEmpty.string_of_uint (N.to_uint (N.of_nat k)) <> EmptyString).
  { destruct (N.to_uint (N.of_nat k)); [contradiction | discriminate ..]. }
  fold (NilZero.string_of_uint (N.to_uint (N.of_nat k))). rewrite Hz.
  rewrite (parse_zeros _ _ _ Hne (NilEmpty.usu _)).
  now rewrite DecimalN.Unsigned.of_to.
Qed.

(** ** Order of events inside a run *)

Lemma capture_guarded_quiet (P : Q -> Prop) (l : list event) :
  (forall r, ~ In (EvCapture r) l) -> capture_guarded P l.
Proof.
  intros H pre r post E. exfalso. apply (H r). rewrite E. apply in_elt.
Qed.

Lemma capture_guarded_app (P : Q -> Prop) (l1 l2 : list event) :
  capture_guarded P l1 -> capture_guarded P l2 ->
  (forall r l, l2 <> EvCapture r :: l) ->
  capture_guarded P (l1 ++ l2).
Proof.
  intros H1 H2 Hhd pre r post E.
  apply app_eq_app in E. destruct E as (l & [[-> E]|[-> E]]).
  - destruct l as [|x l]; simpl in E.
    + symmetry in E. now apply Hhd in E.
    + injection E as <- ->.
      now apply (H1 pre r l).
  - destruct (H2 l r post E) as (pre' & t & -> & Ht).
    exists (l1 ++ pre'), t. split; [now rewrite app_assoc | exact Ht].
Qed.

Lemma capture_guarded_attempt (P : Q -> Prop) (t : Q) (r : option ndarray) :
  P t -> capture_guarded P [EvTime t; EvCapture r].
Proof.
  intros Ht pre r' post E.
  destruct pre as [|e0 pre]; [discriminate|]. injection E as <- E.
  destruct pre as [|e1 pre].
  - exists [], t. split; [reflexivity | exact Ht].
  - injection E as _ E. now destruct pre.
Qed.

Lemma flushed_at_once_quiet (l : list event) :
  (forall s, ~ In (EvWrite s) l) -> flushed_at_once l.
Proof.
  intros H pre s post E. exfalso. apply (H s). rewrite E. apply in_elt.
Qed.

Lemma flushed_at_once_app (l1 l2 : list event) :
  flushed_at_once l1 -> flushed_at_once l2 -> flushed_at_once (l1 ++ l2).
Proof.
  intros H1 H2 pre s post E.
  apply app_eq_app in E. destruct E as (l & [[-> E]|[-> E]]).
  - destruct l as [|x l]; simpl in E.
    + symmetry in E. apply (H2 [] s post E).
    + injection E as <- ->.
      destruct (H1 pre s l) as (t & d & post' & ->); [reflexivity|].
      now exists t, d, (post' ++ l2).
  - apply (H2 l s post E).
Qed.

Section OrderFacts.
Context (env : Env) (fd : string) (period : Q).
Context (conv : ndarray -> ndarray) (dims : ndarray -> Z * Z).

Local Abbreviation events_of := (cycle_events env fd period conv dims).

Lemma cycle_split (c : cycle) :
  events_of c =
  [EvTime (c_start c); EvCapture (Some (c_frame c))] ++
  [EvImwrite (frame_path fd (c_idx c)) (conv (c_frame c))] ++
  [EvWrite (cycle_line env dims c); EvFlush; EvTime (c_end c);
   EvSleep (cycle_sleep period c)].
Proof. reflexivity. Qed.

Lemma capture_guarded_cycles (P : Q -> Prop) (cs : list cycle) :
  (forall c, In c cs -> P (c_start c)) ->
  capture_guarded P (flat_map events_of cs).
Proof.
  induction cs as [|c cs IH]; intros HP.
  - apply capture_guarded_quiet. intros r [].
  - change (flat_map events_of (c :: cs)) with (events_of c ++ flat_map events_of cs).
    apply capture_guarded_app.
    + rewrite cycle_split. apply capture_guarded_app.
      * apply capture_guarded_attempt, HP. now left.
      * apply capture_guarded_quiet. intros r H. simpl in H.
        repeat (destruct H as [H|H]; [discriminate|]). exact H.
      * discriminate.
    + apply IH. intros c' Hc'. apply HP. now right.
    + destruct cs; discriminate.
Qed.

Lemma flushed_at_once_cycle (c : cycle) : flushed_at_once (events_of c).
Proof.
  intros pre s post E.
  do 3 (destruct pre as [|? pre]; [discriminate|]; injection E as _ E).
  destruct pre as [|? pre].
  - injection E as _ <-. now eexists _, _, [].
  - injection E as _ E.
    do 3 (destruct pre as [|? pre]; [discriminate|]; injection E as _ E).
    now destruct pre.
Qed.

Lemma flushed_at_once_cycles (cs : list cycle) :
  flushed_at_once (flat_map events_of cs).
Proof.
  induction cs as [|c cs IH].
  - apply flushed_at_once_quiet. intros s [].
  - change (flat_map events_of (c :: cs)) with (events_of c ++ flat_map events_of cs).
    apply flushed_at_once_app; [apply flushed_at_once_cycle | exact IH].
Qed.
End OrderFacts.

Lemma end_events_no_write (b : backend_t) (e : run_end) (s : string) :
  ~ In (EvWrite s) (end_events (fail_events_of b) e).
Proof.
  destruct e, b; simpl; intros H;
    repeat (destruct H as [H|H]; [discriminate|]); exact H.
Qed.

(** ** How the camera is left, and what a failed capture does *)

(** Once the camera is open, a loop function releases it when it returns and
    only then: an exception that leaves the function passes the release
    call by. *)
Lemma release_only_on_return (b : backend_t) (env : Env) (fuel : nat) (a : Args) (w : World) :
  camera_ok env a b = true ->
  ~ (fps a == 0)%Q ->
  cam (snd (acquisition_loop b env fuel a w)) =
    match fst (acquisition_loop b env fuel a w) with
    | Ok _ => CamReleased
    | _ => CamRunning
    end.
Proof.
  intros Hcam Hfps.
  destruct (loop_cases b env fuel a w)
    as [(Hc & _)|[(_ & Hz & _)|(_ & _ & cs & e & w1 & HR & HL)]];
    [congruence | contradiction |].
  rewrite HL. simpl.
  pose proof (runs_cam _ _ _ _ _ _ _ _ _ _ _ _ _ _ _ HR) as Hc. simpl in Hc.
  destruct (end_result (fail_exn_of b) e); simpl; auto.
Qed.

Lemma runs_capture_failure env a fd meta period t0 conv dims fail_events
    fuel i w cs e w' :
  runs env a fd meta period t0 conv dims fail_events fuel i w cs e w' ->
  (forall t, expired a t0 t = false) ->
  forall n : nat,
    (n < fuel)%nat ->
    (forall j, (j < n)%nat ->
       capture env (n_capture w + j) <> None /\ sigint env (n_sleep w + j) = false) ->
    capture env (n_capture w + n) = None ->
    e = EndCaptureFailed (clock env (n_time w + 2 * n)) /\ length cs = n.
Proof.
  intros HR Hno.
  induction HR as [i w|m i w Hx|m i w Hx Hc|m i w frame Hx Hc Hs
                  |m i w frame cs e w' Hx Hc Hs HR IH]; intros n Hn Hok Hfail.
  - lia.
  - rewrite Hno in Hx. discriminate.
  - destruct n as [|n].
    + now rewrite Nat.add_0_r.
    + destruct (Hok 0%nat) as [H1 _]; [lia|]. rewrite Nat.add_0_r in H1. contradiction.
  - destruct n as [|n].
    + rewrite Nat.add_0_r in Hfail. congruence.
    + destruct (Hok 0%nat) as [_ H1]; [lia|]. rewrite Nat.add_0_r in H1. congruence.
  - destruct n as [|n].
    + rewrite Nat.add_0_r in Hfail. congruence.
    + destruct (IH n) as [-> Hlen].
      * lia.
      * intros j Hj. destruct (Hok (S j)) as [H1 H2]; [lia|]. simpl.
        rewrite Nat.add_succ_r in H1, H2. auto.
      * simpl. now rewrite Nat.add_succ_r in Hfail.
      * split; [|simpl; now rewrite Hlen]. f_equal. f_equal. simpl. lia.
Qed.

(** X11: in an unbounded run whose first [n] captures succeed and whose next
    one fails, [n] frames are saved and [n] records written; the OpenCV loop then
    prints its diagnostic, returns and releases the camera, while the
    Picamera2 loop lets the exception out, prints nothing and leaves the
    camera running. *)
Lemma capture_failure_outcome (b : backend_t) (env : Env) (fuel : nat) (a : Args)
    (w : World) (n : nat) :
  camera_ok env a b = true ->
  ~ (fps a == 0)%Q ->
  (seconds a <= 0)%Q ->
  (n < fuel)%nat ->
  (forall j, (j < n)%nat ->
     capture env (n_capture w + j) <> None /\ sigint env (n_sleep w + j) = false) ->
  capture env (n_capture w + n) = None ->
  let run := acquisition_loop b env fuel a w in
  length (imwrites (new_events w (snd run))) = n /\
  length (writes (new_events w (snd run))) = n /\
  match b with
  | opencv =>
      fst run = Ok tt /\ cam (snd run) = CamReleased /\
      prints (new_events w (snd run)) = ["Frame read failed, stopping."]
  | picamera2 =>
      fst run = Raise Picamera2Error /\ cam (snd run) = CamRunning /\
      prints (new_events w (snd run)) = []
  end.
Proof.
  intros Hcam Hfps Hsec Hn Hok Hfail. simpl.
  assert (Hnever : forall t, expired a (clock env (n_time w)) t = false).
  { intros t. unfold expired.
    apply (proj2 (Qgtb_false _ _)) in Hsec. now rewrite Hsec. }
  pose proof (release_only_on_return b env fuel a w Hcam Hfps) as Hrel.
  destruct (loop_trace b env fuel a w)
    as [(x & _ & [Hc|Hf] & _)|(_ & _ & cs & e & w1 & HR & HL & Hev)];
    [congruence | contradiction |].
  destruct (runs_capture_failure _ _ _ _ _ _ _ _ _ _ _ _ _ _ _ HR Hnever n Hn Hok Hfail)
    as [-> Hlen].
  destruct (shape_projections env (frames_dir_of a) (1 / fps a) (conv_of b)
              (dims_of a b) b (clock env (n_time w)) cs
              (EndCaptureFailed (clock env (n_time w + 1 + 2 * n)))) as (E1 & E2 & _).
  simpl n_time in *. rewrite Hev.
  replace (S (n_time w) + 2 * n)%nat with (n_time w + 1 + 2 * n)%nat by lia.
  rewrite E1, E2, !length_map.
  split; [exact Hlen|]. split; [exact Hlen|].
  assert (Hp : forall l, prints (EvTime (clock env (n_time w))
                 :: flat_map (cycle_events env (frames_dir_of a) (1 / fps a)
                                (conv_of b) (dims_of a b)) cs ++ l) = prints l).
  { intros l. change (prints (EvTime ?t :: ?l')) with (prints l').
    unfold prints. rewrite omap_app.
    replace (omap _ (flat_map _ cs)) with (@nil string); [reflexivity|].
    clear. induction cs as [|c cs IH]; [reflexivity | exact IH]. }
  rewrite Hp. rewrite HL in Hrel |- *. simpl fst in *.
  destruct b; simpl in *; auto.
Qed.

(** ** [main] around the loop *)

Lemma main_unfold (env : Env) (fuel : nat) (args : Args) (w : World) :
  main env fuel args w =
  try_except_finally
    (acquisition_loop (backend args) env fuel args)
    (print (NL +:+ "Stopped by user (Ctrl+C)."))
    (print ("Saved frames under: " +:+ abspath env (out args)))
    (header_world env args w).
Proof.
  unfold main, bind, ensure_dir, os_makedirs, with_file, open_write, f_write,
    f_close, flush_world, set_handle, set_files, set_dirs, emit; simpl.
  rewrite content_insert, insert_insert_eq, append_empty_l.
  fold (header_text env args). fold (header_path args).
  replace (if backend_eqb (backend args) picamera2
           then picamera2_loop env fuel args else opencv_loop env fuel args)
    with (acquisition_loop (backend args) env fuel args)
    by (now destruct (backend args)).
  reflexivity.
Qed.

(** ** Finding a cycle by its position *)

Lemma index_of_cycle (cs : list cycle) (k : nat) (c : cycle) :
  map c_idx cs = map Z.of_nat (seq 0 (length cs)) ->
  cs !! k = Some c -> c_idx c = Z.of_nat k.
Proof.
  intros Hidx Hk.
  apply (f_equal (fun l : list Z => l !! k)) in Hidx.
  change (map ?f ?l) with (f <$> l) in Hidx.
  rewrite !list_lookup_fmap, Hk in Hidx.
  rewrite lookup_seq_lt in Hidx by (now apply lookup_lt_Some in Hk).
  simpl in Hidx. now injection Hidx.
Qed.

Lemma lookup_map {A B : Type} (f : A -> B) (l : list A) (k : nat) (x : A) :
  l !! k = Some x -> map f l !! k = Some (f x).
Proof.
  intros H. change (map f l) with (f <$> l). now rewrite list_lookup_fmap, H.
Qed.

(** The events of the [k]-th cycle sit in the trace of the cycles. *)
Lemma cycle_in_trace {E : Type} (f : cycle -> list E) (cs : list cycle) (k : nat) (c : cycle) :
  cs !! k = Some c ->
  exists pre post, flat_map f cs = pre ++ f c ++ post.
Proof.
  intros Hk. rewrite <- (take_drop_middle cs k c Hk), flat_map_app. simpl.
  now exists (flat_map f (take k cs)), (flat_map f (drop (S k) cs)).
Qed.

(** * The claims *)

(** C1, as amended: in both backend variants, every line appended to the
    metadata log is the JSON object of a dict with exactly the fields [idx]
    (a non-negative integer), [file] (the relative path of the frame),
    [timestamp_unix] (a float), [timestamp_iso] (the ISO string of that same
    time), [width] and [height], in this order.  The specification calls the
    first field [index]; the program writes [idx]. *)
Theorem metadata_record_fields (b : backend_t) (env : Env) (fuel : nat) (a : Args) (w : World) :
  Forall (fun s : string =>
            exists (i : Z) (t : Q) (wd ht : Z),
              let r := frame_record env i (fmt_06d i +:+ ".png") t wd ht in
              s = json_dumps (float_repr env) None r +:+ NL /\
              keys r = record_fields /\
              (0 <= i)%Z /\
              dict_get "idx" r = Some (JInt i) /\
              dict_get "file" r = Some (JStr ("frames/" +:+ fmt_06d i +:+ ".png")) /\
              dict_get "timestamp_unix" r = Some (JFloat t) /\
              dict_get "timestamp_iso" r = Some (JStr (isoformat env t)) /\
              dict_get "width" r = Some (JInt wd) /\
              dict_get "height" r = Some (JInt ht))
         (writes (new_events w (snd (acquisition_loop b env fuel a w)))).
Proof.
  destruct (loop_projections b env fuel a w) as (cs & _ & Hw & _ & Hidx & _).
  simpl in Hw. rewrite Hw. apply Forall_forall. intros s Hs.
  apply list_elem_of_In, in_map_iff in Hs. destruct Hs as (c & <- & Hc).
  exists (c_idx c), (c_start c), (fst (dims_of a b (c_frame c))),
    (snd (dims_of a b (c_frame c))).
  split; [reflexivity|]. split; [reflexivity|]. split; [|repeat split].
  assert (Hin : In (c_idx c) (map c_idx cs)) by now apply in_map.
  rewrite Hidx in Hin. apply in_map_iff in Hin. destruct Hin as (j & <- & _). lia.
Qed.

(** C1, as stated, fails: the one record of this run is not the JSON object
    of any dict whose fields are those the specification lists. *)
Lemma metadata_record_fields_counterexample :
  let env := sample_env 1 None in
  let run := acquisition_loop opencv env 5 (sample_args opencv 10 0) empty_world in
  exists s : string,
    writes (new_events empty_world (snd run)) = [s] /\
    forall r : dict,
      keys r = spec_fields -> s <> json_dumps (float_repr env) None r +:+ NL.
Proof.
  eexists. split; [vm_compute; reflexivity|].
  intros r Hk E.
  destruct r as [|[k1 v1] r]; [discriminate|].
  unfold keys, spec_fields in Hk. simpl in Hk. injection Hk as -> Hk.
  destruct r as [|[k2 v2] r]; [discriminate|].
  vm_compute in E. discriminate E.
Qed.

(** C4: within one run the [k]-th saved frame and the [k]-th appended record
    both come from the cycle with index [k] (indices 0, 1, 2, ... with no
    gap): the record of the [k]-th frame has [idx] equal to [k] and names the
    file [frames/NNNNNN.png], and the frame is written to that file under the
    output directory, where [NNNNNN] is [k] in decimal, padded with zeros to
    six digits, starting at [000000]. *)
Theorem frame_numbering (b : backend_t) (env : Env) (fuel : nat) (a : Args) (w : World) :
  exists cs : list cycle,
    let evs := new_events w (snd (acquisition_loop b env fuel a w)) in
    map c_idx cs = map Z.of_nat (seq 0 (length cs)) /\
    imwrites evs =
      map (fun c => (os_path_join (os_path_join (out a) "frames")
                                  (fmt_06d (c_idx c) +:+ ".png"),
                     conv_of b (c_frame c))) cs /\
    writes evs =
      map (fun c => json_dumps (float_repr env) None
                      (frame_record env (c_idx c) (fmt_06d (c_idx c) +:+ ".png")
                         (c_start c) (fst (dims_of a b (c_frame c)))
                         (snd (dims_of a b (c_frame c)))) +:+ NL) cs /\
    Forall (fun c =>
              parse_decimal (fmt_06d (c_idx c)) = Some (Z.to_N (c_idx c)) /\
              String.length (fmt_06d (c_idx c)) =
                Nat.max 6 (String.length (digits (Z.to_N (c_idx c))))) cs /\
    fmt_06d 0 = "000000" /\
    (forall (k : nat) (c : cycle), cs !! k = Some c ->
       let name := fmt_06d (Z.of_nat k) +:+ ".png" in
       let r := frame_record env (Z.of_nat k) name (c_start c)
                             (fst (dims_of a b (c_frame c)))
                             (snd (dims_of a b (c_frame c))) in
       imwrites evs !! k =
         Some (os_path_join (os_path_join (out a) "frames") name,
               conv_of b (c_frame c)) /\
       writes evs !! k = Some (json_dumps (float_repr env) None r +:+ NL) /\
       dict_get "idx" r = Some (JInt (Z.of_nat k)) /\
       dict_get "file" r = Some (JStr ("frames/" +:+ name)) /\
       parse_decimal (fmt_06d (Z.of_nat k)) = Some (N.of_nat k)).
Proof.
  destruct (loop_projections b env fuel a w) as (cs & Hi & Hw & _ & Hidx & _).
  exists cs. simpl in *.
  split; [exact Hidx|]. split; [exact Hi|]. split; [exact Hw|].
  split; [|split; [reflexivity|]].
  - apply Forall_forall. intros c Hc.
    assert (Hin : In (c_idx c) (map c_idx cs)) by now apply in_map, list_elem_of_In.
    rewrite Hidx in Hin. apply in_map_iff in Hin. destruct Hin as (j & <- & _).
    replace (Z.to_N (Z.of_nat j)) with (N.of_nat j)
      by (now rewrite <- nat_N_Z, N2Z.id).
    split; [apply parse_fmt_06d|].
    rewrite fmt_06d_of_nat, length_append, length_zeros. lia.
  - intros k c Hk. pose proof (index_of_cycle cs k c Hidx Hk) as Hc.
    split; [|split; [|split; [reflexivity|split; [reflexivity|apply parse_fmt_06d]]]].
    + rewrite Hi, <- Hc.
      exact (lookup_map (fun c => (frame_path (frames_dir_of a) (c_idx c),
                                   conv_of b (c_frame c))) cs k c Hk).
    + rewrite Hw, <- Hc.
      exact (lookup_map (cycle_line env (dims_of a b)) cs k c Hk).
Qed.

(** C5: with [seconds > 0], every capture attempt of a run comes directly
    after the clock reading [t] that starts its cycle, and [t] is before
    [t0 + seconds]; a run that returns on the duration check (its last event
    is the clock reading [t] of that check) has lasted at least [seconds]. *)
Theorem duration_bound (b : backend_t) (env : Env) (fuel : nat) (a : Args) (w : World) :
  (0 < seconds a)%Q ->
  let t0 := clock env (n_time w) in
  let run := acquisition_loop b env fuel a w in
  let evs := new_events w (snd run) in
  capture_guarded (fun t => (t < t0 + seconds a)%Q) evs /\
  (forall t, fst run = Ok tt -> last evs = Some (EvTime t) -> (t0 + seconds a <= t)%Q).
Proof.
  intros Hsec. simpl.
  assert (Hnot : forall t, expired a (clock env (n_time w)) t = false ->
                           (t < clock env (n_time w) + seconds a)%Q).
  { intros t Hx. unfold expired in Hx.
    apply (proj2 (Qgtb_true _ _)) in Hsec. rewrite Hsec in Hx. simpl in Hx.
    apply Qgeb_false in Hx. lra. }
  destruct (loop_trace b env fuel a w)
    as [(x & _ & _ & _ & Hev)|(_ & _ & cs & e & w1 & HR & HL & Hev)]; rewrite Hev.
  { split; [|discriminate]. apply capture_guarded_quiet. intros r []. }
  pose proof (runs_end _ _ _ _ _ _ _ _ _ _ _ _ _ _ _ HR) as Hend.
  split.
  - apply (capture_guarded_app _ [EvTime (clock env (n_time w))]).
    + apply capture_guarded_quiet. intros r [H|[]]. discriminate.
    + apply capture_guarded_app.
      * apply capture_guarded_cycles. intros c Hc.
        apply list_elem_of_In, list_elem_of_lookup in Hc. destruct Hc as (j & Hj).
        apply Hnot.
        now destruct (runs_cycle_at _ _ _ _ _ _ _ _ _ _ _ _ _ _ _ HR j c Hj)
          as (_ & _ & _ & _ & ?).
      * destruct e as [|t|t|]; simpl end_events;
          try (apply capture_guarded_quiet; intros r H; simpl in H;
               repeat (destruct H as [H|H]; [discriminate|]); exact H).
        destruct Hend as (_ & Hx & _ & _).
        apply (capture_guarded_app _ [EvTime t; EvCapture None]).
        -- apply capture_guarded_attempt, Hnot, Hx.
        -- apply capture_guarded_quiet. intros r H. destruct b; simpl in H;
             repeat (destruct H as [H|H]; [discriminate|]); exact H.
        -- destruct b; discriminate.
      * destruct e; discriminate.
    + destruct cs; destruct e; discriminate.
  - intros t Hok Hlast. rewrite HL in Hok. simpl in Hok.
    destruct e as [|t'|t'|]; try discriminate.
    + simpl end_events in Hlast.
      rewrite app_comm_cons, last_snoc in Hlast. injection Hlast as <-.
      destruct Hend as (_ & Hx). unfold expired in Hx.
      apply andb_true_iff in Hx. destruct Hx as [_ Hx].
      apply Qgeb_true in Hx. lra.
    + destruct b; [discriminate|]. simpl end_events in Hlast.
      rewrite app_comm_cons, last_app in Hlast. simpl in Hlast. discriminate.
Qed.

(** A run of half a second: two frames are saved, the third cycle starts at
    [t0 + 0.5] and the duration check ends the run there. *)
Lemma duration_bound_witness :
  let a := sample_args opencv 10 (1 # 2) in
  let env := sample_env 10 None in
  let run := acquisition_loop opencv env 10 a empty_world in
  (0 < seconds a)%Q /\
  fst run = Ok tt /\
  last (new_events empty_world (snd run)) = Some (EvTime (5 # 10)) /\
  length (imwrites (new_events empty_world (snd run))) = 2%nat /\
  capture_guarded (fun t => (t < clock env 0 + seconds a)%Q)
                  (new_events empty_world (snd run)) /\
  (clock env 0 + seconds a <= 5 # 10)%Q.
Proof.
  intros a env run.
  assert (H0 : (0 < seconds a)%Q) by reflexivity.
  assert (H1 : fst run = Ok tt) by (vm_compute; reflexivity).
  assert (H2 : last (new_events empty_world (snd run)) = Some (EvTime (5 # 10)))
    by (vm_compute; reflexivity).
  destruct (duration_bound opencv env 10 a empty_world H0) as [Hg Hd].
  split; [exact H0|]. split; [exact H1|]. split; [exact H2|].
  split; [vm_compute; reflexivity|]. split; [exact Hg|].
  exact (Hd (5 # 10) H1 H2).
Defined.

(** C6: in both variants the new events of a run are the reading of [t0],
    then one block per completed cycle, then the ending.  In each block the
    frame is saved, its record written and flushed, the clock read again, and
    then the loop sleeps for exactly [max(0, period - elapsed)], where
    [period = 1 / fps] and [elapsed] is the time between the two clock
    readings of that cycle.  The sleep is never negative; it is zero when the
    work of the cycle took the period or longer; and the cycle indices are
    0, 1, 2, ...: no frame is skipped. *)
Theorem rate_control (b : backend_t) (env : Env) (fuel : nat) (a : Args) (w : World) :
  exists (cs : list cycle) (e : run_end),
    let period := (1 / fps a)%Q in
    let evs := new_events w (snd (acquisition_loop b env fuel a w)) in
    (evs = [] /\ cs = [] \/
     evs = EvTime (clock env (n_time w))
             :: flat_map (cycle_events env (frames_dir_of a) period
                            (conv_of b) (dims_of a b)) cs
             ++ end_events (fail_events_of b) e) /\
    sleeps evs = map (fun c => py_max 0 (period - (c_end c - c_start c))) cs /\
    map c_idx cs = map Z.of_nat (seq 0 (length cs)) /\
    Forall (fun c =>
              let elapsed := (c_end c - c_start c)%Q in
              (0 <= py_max 0 (period - elapsed))%Q /\
              ((period <= elapsed)%Q -> py_max 0 (period - elapsed) = 0%Q) /\
              ((elapsed < period)%Q -> py_max 0 (period - elapsed) = (period - elapsed)%Q))
           cs /\
    (forall (j : nat) (c : cycle), cs !! j = Some c ->
       c_start c = clock env (n_time w + 1 + 2 * j) /\
       c_end c = clock env (n_time w + 2 + 2 * j)).
Proof.
  assert (HF : forall cs : list cycle,
    Forall (fun c =>
              let elapsed := (c_end c - c_start c)%Q in
              (0 <= py_max 0 (1 / fps a - elapsed))%Q /\
              ((1 / fps a <= elapsed)%Q -> py_max 0 (1 / fps a - elapsed) = 0%Q) /\
              ((elapsed < 1 / fps a)%Q ->
               py_max 0 (1 / fps a - elapsed) = (1 / fps a - elapsed)%Q)) cs).
  { intros cs. apply Forall_forall. intros c _. simpl.
    split; [apply py_max_nonneg|].
    split; intros H; [apply py_max_zero | apply py_max_pos]; lra. }
  destruct (loop_trace b env fuel a w)
    as [(x & _ & _ & _ & Hev)|(_ & _ & cs & e & w1 & HR & HL & Hev)].
  - exists [], EndRunning. simpl. rewrite Hev.
    split; [now left|]. split; [reflexivity|]. split; [reflexivity|].
    split; [apply HF|]. intros j c H. now rewrite lookup_nil in H.
  - exists cs, e. simpl. rewrite Hev.
    destruct (shape_projections env (frames_dir_of a) (1 / fps a) (conv_of b)
                (dims_of a b) b (clock env (n_time w)) cs e) as (_ & _ & E3).
    split; [now right|]. split; [exact E3|]. split; [|split; [apply HF|]].
    + rewrite (runs_indices _ _ _ _ _ _ _ _ _ _ _ _ _ _ _ HR).
      apply map_ext. intros j. lia.
    + intros j c H.
      destruct (runs_cycle_at _ _ _ _ _ _ _ _ _ _ _ _ _ _ _ HR j c H)
        as (_ & H2 & H3 & _).
      rewrite H2, H3. simpl. split; f_equal; lia.
Qed.

(** C8: whatever the log held before the run is still there, unchanged, and
    the run has only appended its records after it; this holds on disk at
    every point at which the run may be cut off between two cycles ([fuel]
    is arbitrary), because every write is directly followed by a flush, before
    the clock reading and the sleep that end the cycle.  When the loop has
    been entered, nothing is left in the buffer of the log. *)
Theorem log_append_flush (b : backend_t) (env : Env) (fuel : nat) (a : Args) (w : World) :
  let w' := snd (acquisition_loop b env fuel a w) in
  let evs := new_events w w' in
  content (files w') (meta_path_of a) =
    content (files w) (meta_path_of a)
    +:+ fold_right String.append EmptyString (writes evs) /\
  flushed_at_once evs /\
  (evs = [] \/ handle w' = None \/ handle w' = Some (meta_path_of a, EmptyString)).
Proof.
  simpl.
  destruct (loop_trace b env fuel a w)
    as [(x & _ & _ & Hf & Hev)|(_ & _ & cs & e & w1 & HR & HL & Hev)]; rewrite Hev.
  - rewrite Hf. simpl. rewrite append_empty_r.
    split; [reflexivity|]. split; [|now left].
    apply flushed_at_once_quiet. intros s [].
  - destruct (shape_projections env (frames_dir_of a) (1 / fps a) (conv_of b)
                (dims_of a b) b (clock env (n_time w)) cs e) as (_ & E2 & _).
    rewrite E2. split; [|split].
    + rewrite HL. simpl.
      replace (files (loop_finish (end_result (fail_exn_of b) e) w1)) with (files w1)
        by (now destruct (end_result (fail_exn_of b) e)).
      rewrite (runs_files _ _ _ _ _ _ _ _ _ _ _ _ _ _ _ HR), cycles_append_lines.
      simpl. now rewrite content_insert.
    + apply (flushed_at_once_app [EvTime (clock env (n_time w))]).
      * apply flushed_at_once_quiet. intros s [H|[]]. discriminate.
      * apply flushed_at_once_app; [apply flushed_at_once_cycles|].
        apply flushed_at_once_quiet, end_events_no_write.
    + right. rewrite HL. simpl.
      pose proof (runs_handle _ _ _ _ _ _ _ _ _ _ _ _ _ _ _ HR eq_refl) as Hh.
      destruct (end_result (fail_exn_of b) e); simpl; auto.
Qed.

(** C9: for every [seconds <= 0], negative values included, neither loop
    ever stops on the duration check.  As long as every capture succeeds and
    no interrupt arrives, the loop is still running, one saved frame per
    cycle, however many cycles it is given; and when it does stop, a capture
    has failed or an interrupt has arrived. *)
Theorem unbounded_run (b : backend_t) (env : Env) (fuel : nat) (a : Args) (w : World) :
  (seconds a <= 0)%Q ->
  camera_ok env a b = true ->
  ~ (fps a == 0)%Q ->
  let run := acquisition_loop b env fuel a w in
  ((forall j, (j < fuel)%nat ->
      capture env (n_capture w + j) <> None /\ sigint env (n_sleep w + j) = false) ->
   fst run = Diverge /\ length (imwrites (new_events w (snd run))) = fuel) /\
  (fst run <> Diverge ->
   exists j, (j < fuel)%nat /\
     (capture env (n_capture w + j) = None \/ sigint env (n_sleep w + j) = true)).
Proof.
  intros Hsec Hcam Hfps. simpl.
  assert (Hnever : forall t, expired a (clock env (n_time w)) t = false).
  { intros t. unfold expired.
    apply (proj2 (Qgtb_false _ _)) in Hsec. now rewrite Hsec. }
  destruct (loop_trace b env fuel a w)
    as [(x & _ & [Hc|Hf] & _)|(_ & _ & cs & e & w1 & HR & HL & Hev)];
    [congruence | contradiction |].
  pose proof (runs_length _ _ _ _ _ _ _ _ _ _ _ _ _ _ _ HR) as Hlen.
  split.
  - intros Hok.
    destruct (runs_unbounded _ _ _ _ _ _ _ _ _ _ _ _ _ _ _ HR Hnever Hok) as [-> Hn].
    rewrite Hev, HL. simpl fst. split; [reflexivity|].
    destruct (shape_projections env (frames_dir_of a) (1 / fps a) (conv_of b)
                (dims_of a b) b (clock env (n_time w)) cs EndRunning) as (E1 & _).
    rewrite E1, length_map. exact Hn.
  - intros Hstop. rewrite HL in Hstop. simpl in Hstop.
    pose proof (runs_end _ _ _ _ _ _ _ _ _ _ _ _ _ _ _ HR) as Hend.
    destruct e as [|t|t|].
    + now contradiction Hstop.
    + destruct Hend as (_ & Hx). rewrite Hnever in Hx. discriminate.
    + destruct Hend as (_ & _ & Hc & Hlt). simpl in Hc.
      exists (length cs). split; [exact Hlt | now left].
    + destruct Hend as (n & Hn & Hs). simpl in Hs.
      exists n. split; [lia | now right].
Qed.

(** An unbounded run with a negative duration: 7 cycles, 7 frames, still
    running. *)
Lemma unbounded_run_witness :
  let a := sample_args picamera2 10 (-3) in
  let env := sample_env 7 None in
  let run := acquisition_loop picamera2 env 7 a empty_world in
  (seconds a <= 0)%Q /\ camera_ok env a picamera2 = true /\ ~ (fps a == 0)%Q /\
  (forall j, (j < 7)%nat ->
     capture env (n_capture empty_world + j) <> None /\
     sigint env (n_sleep empty_world + j) = false) /\
  fst run = Diverge /\
  length (imwrites (new_events empty_world (snd run))) = 7%nat.
Proof.
  intros a env run.
  assert (H1 : (seconds a <= 0)%Q) by discriminate.
  assert (H2 : camera_ok env a picamera2 = true) by reflexivity.
  assert (H3 : ~ (fps a == 0)%Q) by discriminate.
  assert (H4 : forall j, (j < 7)%nat ->
                 capture env (n_capture empty_world + j) <> None /\
                 sigint env (n_sleep empty_world + j) = false).
  { intros j Hj.
    do 7 (destruct j as [|j]; [split; [discriminate | reflexivity]|]). lia. }
  destruct (unbounded_run picamera2 env 7 a empty_world H1 H2 H3) as [Hrun _].
  repeat (split; [assumption|]). exact (Hrun H4).
Defined.

(** C10: with [fps = 0] each loop raises [ZeroDivisionError] once its camera
    is open and running; no frame file has been written and no record
    appended, and the camera is left running. *)
Theorem zero_fps_fails (b : backend_t) (env : Env) (fuel : nat) (a : Args) (w : World) :
  (fps a == 0)%Q ->
  camera_ok env a b = true ->
  let run := acquisition_loop b env fuel a w in
  fst run = Raise ZeroDivisionError /\
  cam (snd run) = CamRunning /\
  files (snd run) = files w /\
  new_events w (snd run) = [].
Proof.
  intros Hfps Hcam. simpl.
  destruct (loop_cases b env fuel a w)
    as [(Hc & _)|[(_ & _ & w' & HL & Hf & Ht & _ & Hcm)|(_ & Hn & _)]];
    [congruence | | contradiction].
  rewrite HL. simpl. repeat split; auto.
  apply new_events_app. now rewrite app_nil_r.
Qed.

Lemma zero_fps_fails_witness :
  let a := sample_args opencv 0 0 in
  let env := sample_env 3 None in
  (fps a == 0)%Q /\ camera_ok env a opencv = true /\
  fst (acquisition_loop opencv env 5 a empty_world) = Raise ZeroDivisionError /\
  cam (snd (acquisition_loop opencv env 5 a empty_world)) = CamRunning /\
  files (snd (acquisition_loop opencv env 5 a empty_world)) = files empty_world /\
  new_events empty_world (snd (acquisition_loop opencv env 5 a empty_world)) = [].
Proof.
  split; [reflexivity|]. split; [reflexivity|].
  apply (zero_fps_fails opencv (sample_env 3 None) 5 (sample_args opencv 0 0) empty_world);
    reflexivity.
Defined.

(** C3, as amended: when the camera cannot be opened, [main] raises the
    error at once.  No frame file and no metadata record has been written:
    the metadata log is untouched and the only file written is the run
    header.  The output directory is not empty, though: it holds
    [run_header.json] and the [frames] directory, both created before the
    camera is tried. *)
Theorem camera_unavailable (env : Env) (fuel : nat) (args : Args) (w : World) :
  camera_ok env args (backend args) = false ->
  let run := main env fuel args w in
  fst run = Raise (open_error args (backend args)) /\
  files (snd run) = <[ header_path args := header_text env args ]> (files w) /\
  files (snd run) !! meta_path_of args = files w !! meta_path_of args /\
  dirs (snd run) = dirs w ∪ {[ out args ]} ∪ {[ frames_dir_of args ]} /\
  new_events w (snd run) =
    [ EvWrite (header_text env args);
      EvPrint ("Saved frames under: " +:+ abspath env (out args)) ].
Proof.
  intros Hcam. simpl. rewrite main_unfold.
  destruct (loop_cases (backend args) env fuel args (header_world env args w))
    as [(_ & w' & HL & Hf & Ht & Hd)|[(Hc & _)|(Hc & _)]]; [|congruence..].
  unfold try_except_finally. rewrite HL.
  assert (Hfiles : files w' = <[ header_path args := header_text env args ]> (files w))
    by exact Hf.
  assert (Hlog : <[ header_path args := header_text env args ]> (files w)
                   !! meta_path_of args = files w !! meta_path_of args).
  { apply lookup_insert_ne. intros E. apply (f_equal last_char) in E.
    unfold header_path, meta_path_of in E.
    rewrite !last_char_join in E by discriminate. discriminate E. }
  assert (Hev : new_events w (emit (EvPrint ("Saved frames under: "
                                              +:+ abspath env (out args))) w') =
                [ EvWrite (header_text env args);
                  EvPrint ("Saved frames under: " +:+ abspath env (out args)) ]).
  { apply new_events_app. simpl. rewrite Ht. simpl. now rewrite <- app_assoc. }
  destruct (backend args); simpl; rewrite Hfiles, Hd; simpl; auto.
Qed.

Lemma camera_unavailable_witness :
  let args := sample_args opencv 20 0 in
  camera_ok no_camera_env args (backend args) = false /\
  fst (main no_camera_env 5 args empty_world) =
    Raise (RuntimeError "Could not open camera device 0") /\
  dirs (snd (main no_camera_env 5 args empty_world)) =
    dirs empty_world ∪ {[ "data/run_001" ]} ∪ {[ "data/run_001/frames" ]}.
Proof.
  split; [reflexivity|].
  destruct (camera_unavailable no_camera_env 5 (sample_args opencv 20 0) empty_world
              eq_refl) as (H1 & _ & _ & H4 & _).
  split; [exact H1 | exact H4].
Defined.

(** C3, as stated, fails: the camera does not open, the error is raised, and
    yet the disk is not as it was: the run header is there. *)
Lemma camera_unavailable_counterexample :
  let run := main no_camera_env 5 (sample_args opencv 20 0) empty_world in
  fst run = Raise (RuntimeError "Could not open camera device 0") /\
  is_Some (files (snd run) !! "data/run_001/run_header.json") /\
  "data/run_001/frames" ∈ dirs (snd run) /\
  ~ nothing_written empty_world (snd run).
Proof.
  intros run.
  assert (H : is_Some (files (snd run) !! "data/run_001/run_header.json"))
    by (vm_compute; eauto).
  split; [vm_compute; reflexivity|]. split; [exact H|]. split; [compute_done|].
  intros [Hf _]. rewrite Hf in H. simpl in H. rewrite lookup_empty in H.
  now destruct H.
Qed.

(** C2 does not hold of the program.  Ctrl+C arrives during the first
    end-of-cycle sleep; [KeyboardInterrupt] leaves the loop function past its
    release call, [main] catches it, prints its two messages and returns
    normally, and the camera has never been released: it is still running.
    The same happens in both variants ([cam.stop()] and [cap.release()]). *)
Theorem interrupt_skips_release (b : backend_t) :
  let env := sample_env 5 (Some 0%nat) in
  let run := main env 10 (sample_args b 20 0) empty_world in
  fst run = Ok tt /\
  prints (trace (snd run)) =
    [ NL +:+ "Stopped by user (Ctrl+C).";
      "Saved frames under: /home/pi/data/run_001" ] /\
  length (imwrites (trace (snd run))) = 1%nat /\
  cam (snd run) = CamRunning.
Proof. destruct b; vm_compute; auto. Qed.

(** C7 does not hold of the Picamera2 variant.  The third capture fails:
    [cam.capture_array()] can only fail by raising, nothing in
    [picamera2_loop] or [main] catches it, so the exception reaches the caller
    of [main]; the loop prints no diagnostic and the camera is not stopped.
    The two earlier frames and their two records are on disk.  In the same
    surroundings the OpenCV variant does what the claim says: it prints the
    diagnostic, returns normally and releases the camera. *)
Theorem picamera2_capture_failure_raises :
  let env := sample_env 2 None in
  let run := main env 10 (sample_args picamera2 10 0) empty_world in
  let run' := main env 10 (sample_args opencv 10 0) empty_world in
  (fst run = Raise Picamera2Error /\
   prints (trace (snd run)) = [ "Saved frames under: /home/pi/data/run_001" ] /\
   cam (snd run) = CamRunning /\
   map fst (imwrites (trace (snd run))) =
     [ "data/run_001/frames/000000.png"; "data/run_001/frames/000001.png" ] /\
   writes (trace (snd run)) =
     [ header_text env (sample_args picamera2 10 0);
       json_dumps (float_repr env) None
         (frame_record env 0 "000000.png" (1 # 10) 1280 720) +:+ NL;
       json_dumps (float_repr env) None
         (frame_record env 1 "000001.png" (3 # 10) 1280 720) +:+ NL ] /\
   content (files (snd run)) "data/run_001/meta.jsonl" =
     fold_right String.append EmptyString (drop 1 (writes (trace (snd run))))) /\
  (fst run' = Ok tt /\
   prints (trace (snd run')) =
     [ "Frame read failed, stopping.";
       "Saved frames under: /home/pi/data/run_001" ] /\
   cam (snd run') = CamReleased /\
   length (writes (trace (snd run'))) = 3%nat).
Proof. vm_compute. repeat split; reflexivity. Qed.

(** * Further properties of the program *)

(** ** Frame names are distinct *)

Lemma append_inv_tail (t s s' : string) : s +:+ t = s' +:+ t -> s = s'.
Proof.
  revert s'. induction s as [|c s IH]; intros [|c' s'] E.
  - reflexivity.
  - apply (f_equal String.length) in E.
    rewrite append_empty_l, append_cons in E. simpl in E.
    rewrite length_append in E. lia.
  - apply (f_equal String.length) in E.
    rewrite append_empty_l, append_cons in E. simpl in E.
    rewrite length_append in E. lia.
  - rewrite !append_cons in E. injection E as -> E. f_equal. now apply IH.
Qed.

Lemma digits_no_slash (n : N) (s : string) : starts_with_slash (digits n +:+ s) = false.
Proof.
  unfold digits, NilZero.string_of_uint.
  destruct (N.to_uint n); reflexivity.
Qed.

Lemma fmt_06d_no_slash (k : nat) (s : string) :
  starts_with_slash (fmt_06d (Z.of_nat k) +:+ s) = false.
Proof.
  rewrite fmt_06d_of_nat.
  destruct (6 - String.length (digits (N.of_nat k)))%nat; [|reflexivity].
  simpl zeros. rewrite append_empty_l. apply digits_no_slash.
Qed.

Lemma fmt_06d_inj (j k : nat) : fmt_06d (Z.of_nat j) = fmt_06d (Z.of_nat k) -> j = k.
Proof.
  intros E. apply (f_equal parse_decimal) in E.
  rewrite !parse_fmt_06d in E. injection E as E. lia.
Qed.

Lemma frame_path_inj (fd : string) (j k : nat) :
  frame_path fd (Z.of_nat j) = frame_path fd (Z.of_nat k) -> j = k.
Proof.
  unfold frame_path, os_path_join. rewrite !fmt_06d_no_slash.
  intros E. apply fmt_06d_inj, (append_inv_tail ".png").
  destruct (String.eqb fd EmptyString || ends_with_slash fd)%bool.
  - now apply (String.app_inj fd).
  - apply (String.app_inj "/"). now apply (String.app_inj fd).
Qed.

(** ** What a run leaves on disk *)

Section DiskFacts.
Context (env : Env) (a : Args) (conv : ndarray -> ndarray) (dims : ndarray -> Z * Z).

Local Abbreviation files_of :=
  (cycle_files env (frames_dir_of a) (meta_path_of a) conv dims).

(** A path that is neither the log nor one of the frame files of the cycles
    is left alone. *)
Lemma cycles_keep_other (cs : list cycle) : forall (fs : gmap string string) (p : string),
  p <> meta_path_of a ->
  (forall c, In c cs -> frame_path (frames_dir_of a) (c_idx c) <> p) ->
  foldl (fun fs c => files_of c fs) fs cs !! p = fs !! p.
Proof.
  induction cs as [|c cs IH]; intros fs p Hm Hp; [reflexivity|].
  simpl. rewrite IH; [|exact Hm|intros c' Hc'; apply Hp; now right].
  unfold cycle_files. rewrite lookup_insert_ne by congruence.
  apply lookup_insert_ne, Hp. now left.
Qed.

(** The frame file of each cycle holds that cycle's image once all cycles
    are done, provided the cycles are numbered consecutively. *)
Lemma cycles_frame_lookup (cs : list cycle) :
  forall (fs : gmap string string) (n0 : nat),
    (forall j c, cs !! j = Some c -> c_idx c = Z.of_nat (n0 + j)) ->
    forall k c, cs !! k = Some c ->
      foldl (fun fs c => files_of c fs) fs cs
        !! frame_path (frames_dir_of a) (Z.of_nat (n0 + k))
      = Some (png_encode env (conv (c_frame c))).
Proof.
  induction cs as [|c0 cs IH]; intros fs n0 Hidx k c Hk; [now rewrite lookup_nil in Hk|].
  destruct k as [|k]; simpl in Hk.
  - injection Hk as ->. simpl. rewrite cycles_keep_other.
    + unfold cycle_files. rewrite (Hidx 0%nat c eq_refl).
      rewrite lookup_insert_ne by (apply not_eq_sym, frame_path_not_meta).
      apply lookup_insert_eq.
    + apply frame_path_not_meta.
    + intros c' Hc' E.
      apply list_elem_of_In, list_elem_of_lookup in Hc'. destruct Hc' as (j & Hj).
      rewrite (Hidx (S j) c' Hj) in E. apply frame_path_inj in E. lia.
  - simpl. replace (n0 + S k)%nat with (S n0 + k)%nat by lia.
    apply IH; [|exact Hk].
    intros j c' Hj. rewrite (Hidx (S j) c' Hj). f_equal. lia.
Qed.
End DiskFacts.

(** The disk after a run of a loop function, cycle by cycle. *)
Lemma loop_disk (b : backend_t) (env : Env) (fuel : nat) (a : Args) (w : World) :
  exists cs : list cycle,
    let w' := snd (acquisition_loop b env fuel a w) in
    let evs := new_events w w' in
    imwrites evs =
      map (fun c => (frame_path (frames_dir_of a) (c_idx c), conv_of b (c_frame c))) cs /\
    writes evs = map (cycle_line env (dims_of a b)) cs /\
    (forall (k : nat) (c : cycle), cs !! k = Some c ->
       c_idx c = Z.of_nat k /\
       c_start c = clock env (n_time w + 1 + 2 * k) /\
       capture env (n_capture w + k) = Some (c_frame c) /\
       files w' !! frame_path (frames_dir_of a) (Z.of_nat k)
         = Some (png_encode env (conv_of b (c_frame c)))) /\
    content (files w') (meta_path_of a) =
      content (files w) (meta_path_of a) +:+ cycle_lines env (dims_of a b) cs /\
    (forall p : string,
       p <> meta_path_of a ->
       (forall k, (k < length cs)%nat -> p <> frame_path (frames_dir_of a) (Z.of_nat k)) ->
       files w' !! p = files w !! p).
Proof.
  destruct (loop_trace b env fuel a w)
    as [(x & _ & _ & Hf & Hev)|(_ & _ & cs & e & w1 & HR & HL & Hev)].
  - exists []. simpl. rewrite Hev, Hf.
    split; [reflexivity|]. split; [reflexivity|].
    split; [intros k c H; now rewrite lookup_nil in H|].
    split; [|reflexivity].
    unfold cycle_lines. simpl. now rewrite append_empty_r.
  - exists cs. simpl. rewrite Hev.
    destruct (shape_projections env (frames_dir_of a) (1 / fps a) (conv_of b)
                (dims_of a b) b (clock env (n_time w)) cs e) as (E1 & E2 & _).
    assert (Hfiles : files (snd (acquisition_loop b env fuel a w)) =
                     foldl (fun fs c => cycle_files env (frames_dir_of a) (meta_path_of a)
                                          (conv_of b) (dims_of a b) c fs)
                           (files (loop_start env a w)) cs).
    { rewrite HL. transitivity (files w1).
      - simpl. now destruct (end_result (fail_exn_of b) e).
      - exact (runs_files _ _ _ _ _ _ _ _ _ _ _ _ _ _ _ HR). }
    assert (Hidx : forall j c, cs !! j = Some c -> c_idx c = Z.of_nat (0 + j)).
    { intros j c Hj.
      now destruct (runs_cycle_at _ _ _ _ _ _ _ _ _ _ _ _ _ _ _ HR j c Hj) as (-> & _). }
    split; [exact E1|]. split; [exact E2|]. split; [|split].
    + intros k c Hk.
      destruct (runs_cycle_at _ _ _ _ _ _ _ _ _ _ _ _ _ _ _ HR k c Hk)
        as (_ & H2 & _ & H4 & _).
      split; [exact (Hidx k c Hk)|]. split; [|split].
      * rewrite H2. simpl. f_equal. lia.
      * exact H4.
      * rewrite Hfiles.
        apply (cycles_frame_lookup env a (conv_of b) (dims_of a b) cs _ 0%nat Hidx k c Hk).
    + rewrite Hfiles, cycles_append_lines. simpl. now rewrite content_insert.
    + intros p Hm Hp. rewrite Hfiles, cycles_keep_other.
      * simpl. now apply lookup_insert_ne, not_eq_sym.
      * exact Hm.
      * intros c Hc E.
        apply list_elem_of_In, list_elem_of_lookup in Hc. destruct Hc as (j & Hj).
        rewrite (Hidx j c Hj) in E. simpl in E.
        apply (Hp j); [|now symmetry].
        apply lookup_lt_Some in Hj. exact Hj.
Qed.

(** ** Runs whose first cycles are known to go through *)

Lemma runs_prefix env a fd meta period t0 conv dims fail_events (n : nat) :
  forall fuel i w cs e w',
    runs env a fd meta period t0 conv dims fail_events fuel i w cs e w' ->
    (n <= fuel)%nat ->
    (forall j, (j < n)%nat ->
       expired a t0 (clock env (n_time w + 2 * j)) = false /\
       capture env (n_capture w + j) <> None /\
       sigint env (n_sleep w + j) = false) ->
    exists cs1 cs2 wn,
      cs = cs1 ++ cs2 /\ length cs1 = n /\
      n_time wn = (n_time w + 2 * n)%nat /\
      n_capture wn = (n_capture w + n)%nat /\
      n_sleep wn = (n_sleep w + n)%nat /\
      runs env a fd meta period t0 conv dims fail_events
           (fuel - n) (i + Z.of_nat n) wn cs2 e w'.
Proof.
  induction n as [|n IH]; intros fuel i w cs e w' HR Hn Hok.
  - exists [], cs, w. rewrite Nat.sub_0_r, Z.add_0_r, !Nat.add_0_r.
    repeat split; auto.
  - destruct (Hok 0%nat) as (Hx0 & Hc0 & Hs0); [lia|].
    rewrite Nat.add_0_r in Hx0, Hc0, Hs0.
    inversion HR as [i' w0|m i' w0 Hx|m i' w0 Hx Hc|m i' w0 frame Hx Hc Hs
                    |m i' w0 frame cs' e' w'' Hx Hc Hs HR']; subst;
      try lia; try congruence.
    destruct (IH m (i + 1)%Z _ cs' e w' HR') as (cs1 & cs2 & wn & -> & Hl & H1 & H2 & H3 & Hrest).
    + lia.
    + intros j Hj. destruct (Hok (S j)) as (Ha & Hb & Hc'); [lia|].
      set (W := cycle_world env fd meta period conv dims (this_cycle env i frame w) w).
      replace (n_time W + 2 * j)%nat with (n_time w + 2 * S j)%nat by (simpl; lia).
      replace (n_capture W + j)%nat with (n_capture w + S j)%nat by (simpl; lia).
      replace (n_sleep W + j)%nat with (n_sleep w + S j)%nat by (simpl; lia).
      auto.
    + exists (this_cycle env i frame w :: cs1), cs2, wn.
      simpl in H1, H2, H3. simpl length. rewrite Hl.
      repeat split; try lia.
      replace (i + Z.of_nat (S n))%Z with (i + 1 + Z.of_nat n)%Z by lia.
      exact Hrest.
Qed.

(** ** What [main] makes of the outcome of its loop *)

Lemma main_outcome (env : Env) (fuel : nat) (args : Args) (w : World) :
  let saved := EvPrint ("Saved frames under: " +:+ abspath env (out args)) in
  let stopped := EvPrint (NL +:+ "Stopped by user (Ctrl+C).") in
  let r := acquisition_loop (backend args) env fuel args (header_world env args w) in
  main env fuel args w =
    match fst r with
    | Ok _ => (Ok tt, emit saved (snd r))
    | Raise KeyboardInterrupt => (Ok tt, emit saved (emit stopped (snd r)))
    | Raise e => (Raise e, emit saved (snd r))
    | Diverge => (Diverge, snd r)
    end.
Proof.
  simpl. rewrite main_unfold. unfold try_except_finally, bind, print.
  destruct (acquisition_loop (backend args) env fuel args (header_world env args w))
    as [[[]|x|] w1]; simpl; [reflexivity | | reflexivity].
  destruct x; reflexivity.
Qed.

Lemma frame_path_ends_png (fd : string) (i : Z) :
  last_char (frame_path fd i) = Some "g"%char.
Proof.
  unfold frame_path. rewrite last_char_join by (now destruct (fmt_06d i)).
  now rewrite (last_char_append (fmt_06d i) ".png").
Qed.

Lemma header_path_not_meta (a : Args) : header_path a <> meta_path_of a.
Proof.
  intros E. apply (f_equal last_char) in E. unfold header_path, meta_path_of in E.
  rewrite !last_char_join in E by discriminate. discriminate E.
Qed.

Lemma header_path_not_frame (a : Args) (fd : string) (i : Z) :
  header_path a <> frame_path fd i.
Proof.
  intros E. apply (f_equal last_char) in E.
  rewrite frame_path_ends_png in E. unfold header_path in E.
  rewrite last_char_join in E by discriminate. discriminate E.
Qed.

(** A loop function only ever adds to the trace. *)
Lemma trace_grows (b : backend_t) (env : Env) (fuel : nat) (a : Args) (w : World) :
  trace (snd (acquisition_loop b env fuel a w)) =
  trace w ++ new_events w (snd (acquisition_loop b env fuel a w)).
Proof.
  assert (H : exists evs, trace (snd (acquisition_loop b env fuel a w)) = trace w ++ evs).
  { destruct (loop_cases b env fuel a w)
      as [(_ & w' & HL & _ & Ht & _)
         |[(_ & _ & w' & HL & _ & Ht & _)
          |(_ & _ & cs & e & w1 & HR & HL)]]; rewrite HL; simpl.
    - exists []. now rewrite app_nil_r.
    - exists []. now rewrite app_nil_r.
    - replace (trace (loop_finish (end_result (fail_exn_of b) e) w1)) with (trace w1)
        by (now destruct (end_result (fail_exn_of b) e)).
      rewrite (runs_trace _ _ _ _ _ _ _ _ _ _ _ _ _ _ _ HR). simpl.
      rewrite <- app_assoc. eauto. }
  destruct H as (evs & H). now rewrite (new_events_app _ _ _ H).
Qed.

Lemma prints_cycles env fd period conv dims (cs : list cycle) :
  prints (flat_map (cycle_events env fd period conv dims) cs) = [].
Proof. induction cs as [|c cs IH]; [reflexivity | exact IH]. Qed.

Lemma never_expired (a : Args) (t0 : Q) :
  (seconds a <= 0)%Q -> forall t, expired a t0 t = false.
Proof.
  intros Hsec t. unfold expired.
  apply (proj2 (Qgtb_false _ _)) in Hsec. now rewrite Hsec.
Qed.

(** ** Properties beyond the claims *)

(** X1: the [timestamp_unix] of the [k]-th record of a run is the clock
    reading that started its cycle, the reading taken directly before the
    capture of that frame (the [(1 + 2k)]-th [time.time()] after the reading
    of [t0]); so when the clock never goes back, the timestamps are
    non-decreasing in the order the records are written. *)
Theorem timestamps_nondecreasing (b : backend_t) (env : Env) (fuel : nat) (a : Args)
    (w : World) :
  (forall m n : nat, (m <= n)%nat -> (clock env m <= clock env n)%Q) ->
  exists cs : list cycle,
    let evs := new_events w (snd (acquisition_loop b env fuel a w)) in
    length (writes evs) = length cs /\
    (forall (k : nat) (c : cycle), cs !! k = Some c ->
       let t := clock env (n_time w + 1 + 2 * k) in
       let r := frame_record env (Z.of_nat k) (fmt_06d (Z.of_nat k) +:+ ".png") t
                             (fst (dims_of a b (c_frame c)))
                             (snd (dims_of a b (c_frame c))) in
       writes evs !! k = Some (json_dumps (float_repr env) None r +:+ NL) /\
       dict_get "timestamp_unix" r = Some (JFloat t) /\
       exists pre post,
         evs = pre ++ EvTime t :: EvCapture (Some (c_frame c)) :: post) /\
    (forall j k : nat,
       (j <= k)%nat -> (k < length cs)%nat ->
       (clock env (n_time w + 1 + 2 * j) <= clock env (n_time w + 1 + 2 * k))%Q).
Proof.
  intros Hmono.
  destruct (loop_trace b env fuel a w)
    as [(x & _ & _ & _ & Hev)|(_ & _ & cs & e & w1 & HR & HL & Hev)].
  - exists []. cbv zeta. rewrite Hev. split; [reflexivity|]. split.
    + intros k c H. now rewrite lookup_nil in H.
    + intros j k _ H. simpl in H. lia.
  - exists cs. cbv zeta. rewrite Hev.
    destruct (shape_projections env (frames_dir_of a) (1 / fps a) (conv_of b)
                (dims_of a b) b (clock env (n_time w)) cs e) as (_ & E2 & _).
    rewrite E2, length_map. split; [reflexivity|]. split.
    + intros k c Hk.
      destruct (runs_cycle_at _ _ _ _ _ _ _ _ _ _ _ _ _ _ _ HR k c Hk)
        as (H1 & H2 & _).
      assert (Ht : c_start c = clock env (n_time w + 1 + 2 * k)).
      { rewrite H2. f_equal. simpl. lia. }
      split; [|split; [reflexivity|]].
      * rewrite (lookup_map (cycle_line env (dims_of a b)) cs k c Hk).
        unfold cycle_line, cycle_record. now rewrite H1, Ht, Z.add_0_l.
      * destruct (cycle_in_trace (cycle_events env (frames_dir_of a) (1 / fps a)
                                    (conv_of b) (dims_of a b)) cs k c Hk)
          as (pre & post & ->).
        exists (EvTime (clock env (n_time w)) :: pre). eexists.
        rewrite <- Ht, cycle_split, <- !app_assoc. simpl. reflexivity.
    + intros j k Hjk _. apply Hmono. lia.
Qed.

Lemma timestamps_nondecreasing_witness :
  let env := sample_env 3 None in
  let a := sample_args opencv 10 0 in
  (forall m n : nat, (m <= n)%nat -> (clock env m <= clock env n)%Q) /\
  length (writes (new_events empty_world
                    (snd (acquisition_loop opencv env 6 a empty_world)))) = 3%nat /\
  exists cs : list cycle,
    let evs := new_events empty_world (snd (acquisition_loop opencv env 6 a empty_world)) in
    length (writes evs) = length cs /\
    (forall (k : nat) (c : cycle), cs !! k = Some c ->
       let t := clock env (n_time empty_world + 1 + 2 * k) in
       let r := frame_record env (Z.of_nat k) (fmt_06d (Z.of_nat k) +:+ ".png") t
                             (fst (dims_of a opencv (c_frame c)))
                             (snd (dims_of a opencv (c_frame c))) in
       writes evs !! k = Some (json_dumps (float_repr env) None r +:+ NL) /\
       dict_get "timestamp_unix" r = Some (JFloat t) /\
       exists pre post,
         evs = pre ++ EvTime t :: EvCapture (Some (c_frame c)) :: post) /\
    (forall j k : nat,
       (j <= k)%nat -> (k < length cs)%nat ->
       (clock env (n_time empty_world + 1 + 2 * j)
        <= clock env (n_time empty_world + 1 + 2 * k))%Q).
Proof.
  intros env a.
  assert (H : forall m n : nat, (m <= n)%nat -> (clock env m <= clock env n)%Q).
  { intros m n Hmn. unfold Qle. cbn [clock env sample_env Qnum Qden]. lia. }
  split; [exact H|]. split; [vm_compute; reflexivity|].
  exact (timestamps_nondecreasing opencv env 6 a empty_world H).
Defined.

(** X2: for every record a run appends, the frame file it names exists at
    the end of the run and holds the image made from the frame the camera
    returned in that cycle: the [k]-th record names [frames/NNNNNN.png] for
    [k], the file under the output directory holds the [k]-th captured frame
    (as returned for OpenCV, with the colour channels swapped for Picamera2),
    and the record's [width] and [height] are the frame's own in the OpenCV
    variant and the configured ones in the Picamera2 variant. *)
Theorem saved_frames_on_disk (b : backend_t) (env : Env) (fuel : nat) (a : Args) (w : World) :
  exists cs : list cycle,
    let w' := snd (acquisition_loop b env fuel a w) in
    let evs := new_events w w' in
    length (writes evs) = length cs /\
    (forall (k : nat) (c : cycle), cs !! k = Some c ->
       let name := fmt_06d (Z.of_nat k) +:+ ".png" in
       let wd := match b with picamera2 => width a | opencv => cols (c_frame c) end in
       let ht := match b with picamera2 => height a | opencv => rows (c_frame c) end in
       let img := match b with
                  | picamera2 => cvtColor_RGB2BGR (c_frame c)
                  | opencv => c_frame c
                  end in
       let r := frame_record env (Z.of_nat k) name
                             (clock env (n_time w + 1 + 2 * k)) wd ht in
       capture env (n_capture w + k) = Some (c_frame c) /\
       writes evs !! k = Some (json_dumps (float_repr env) None r +:+ NL) /\
       dict_get "file" r = Some (JStr ("frames/" +:+ name)) /\
       dict_get "width" r = Some (JInt wd) /\
       dict_get "height" r = Some (JInt ht) /\
       files w' !! os_path_join (os_path_join (out a) "frames") name
         = Some (png_encode env img)).
Proof.
  destruct (loop_disk b env fuel a w) as (cs & _ & Hw & Hcs & _).
  exists cs. simpl in *. rewrite Hw, length_map.
  split; [reflexivity|].
  intros k c Hk. destruct (Hcs k c Hk) as (H1 & H2 & H3 & H4).
  split; [exact H3|]. split; [|split; [reflexivity|split; [reflexivity|split; [reflexivity|]]]].
  - rewrite (lookup_map (cycle_line env (dims_of a b)) cs k c Hk).
    unfold cycle_line, cycle_record. rewrite H1, H2. now destruct b.
  - destruct b; exact H4.
Qed.

(** X3: no two frames of one run are written to the same file. *)
Theorem frame_names_distinct (b : backend_t) (env : Env) (fuel : nat) (a : Args) (w : World) :
  NoDup (map fst (imwrites (new_events w (snd (acquisition_loop b env fuel a w))))).
Proof.
  destruct (loop_projections b env fuel a w) as (cs & Hi & _ & _ & Hidx & _).
  simpl in Hi. rewrite Hi, map_map. simpl.
  rewrite <- (map_map c_idx (frame_path (frames_dir_of a))), Hidx, map_map.
  change (map ?f ?l) with (f <$> l).
  apply NoDup_fmap_2; [|apply NoDup_seq].
  intros j k E. now apply frame_path_inj in E.
Qed.

(** X4: a loop function changes no file other than [meta.jsonl] and the
    frame files it writes in that run; in particular it never touches
    [run_header.json], so the header [main] wrote before calling the loop is
    not altered by the loop. *)
Theorem loop_writes_only_its_files (b : backend_t) (env : Env) (fuel : nat) (a : Args)
    (w : World) :
  let w' := snd (acquisition_loop b env fuel a w) in
  let evs := new_events w w' in
  files w' !! os_path_join (out a) "run_header.json"
    = files w !! os_path_join (out a) "run_header.json" /\
  (forall p : string,
     p <> os_path_join (out a) "meta.jsonl" ->
     ~ In p (map fst (imwrites evs)) ->
     files w' !! p = files w !! p).
Proof.
  destruct (loop_disk b env fuel a w) as (cs & Hi & _ & Hcs & _ & Hkeep).
  simpl in *. split.
  - apply Hkeep; [apply header_path_not_meta|].
    intros k _. apply header_path_not_frame.
  - intros p Hm Hp. apply Hkeep; [exact Hm|].
    intros k Hk ->. apply Hp. rewrite Hi, map_map. simpl.
    apply lookup_lt_is_Some in Hk. destruct Hk as (c & Hc).
    destruct (Hcs k c Hc) as (<- & _).
    apply in_map_iff. exists c. split; [reflexivity|].
    now apply list_elem_of_In, list_elem_of_lookup_2 with k.
Qed.

(** X6: a bounded run stops by itself.  If the first [N] cycles start
    before [t0 + seconds], their captures succeed and nobody interrupts, and
    the clock reading that would start cycle [N] is at or after
    [t0 + seconds], then the loop function returns normally with exactly [N]
    frames saved and [N] records written, the log closed and the camera
    released. *)
Theorem bounded_run_terminates (b : backend_t) (env : Env) (fuel : nat) (a : Args)
    (w : World) (N : nat) :
  camera_ok env a b = true ->
  ~ (fps a == 0)%Q ->
  (0 < seconds a)%Q ->
  (N < fuel)%nat ->
  (forall j, (j < N)%nat ->
     (clock env (n_time w + 1 + 2 * j) - clock env (n_time w) < seconds a)%Q /\
     capture env (n_capture w + j) <> None /\
     sigint env (n_sleep w + j) = false) ->
  (seconds a <= clock env (n_time w + 1 + 2 * N) - clock env (n_time w))%Q ->
  let run := acquisition_loop b env fuel a w in
  fst run = Ok tt /\
  length (imwrites (new_events w (snd run))) = N /\
  length (writes (new_events w (snd run))) = N /\
  handle (snd run) = None /\
  cam (snd run) = CamReleased.
Proof.
  intros Hcam Hfps Hsec HN Hok Hexp. simpl.
  apply (proj2 (Qgtb_true _ _)) in Hsec.
  destruct (loop_trace b env fuel a w)
    as [(x & _ & [Hc|Hf] & _)|(_ & _ & cs & e & w1 & HR & HL & Hev)];
    [congruence | contradiction |].
  destruct (runs_prefix _ _ _ _ _ _ _ _ _ N _ _ _ _ _ _ HR) as
    (cs1 & cs2 & wn & -> & Hlen & Ht & _ & _ & Hrest); [lia| |].
  { intros j Hj. destruct (Hok j Hj) as (H1 & H2 & H3).
    replace (n_time (loop_start env a w) + 2 * j)%nat
      with (n_time w + 1 + 2 * j)%nat by (simpl; lia).
    split; [|split; [exact H2 | exact H3]].
    unfold expired. rewrite Hsec. apply Qgeb_false. exact H1. }
  assert (Hx : expired a (clock env (n_time w)) (clock env (n_time wn)) = true).
  { unfold expired. rewrite Hsec. apply Qgeb_true. rewrite Ht.
    replace (n_time (loop_start env a w) + 2 * N)%nat
      with (n_time w + 1 + 2 * N)%nat by (simpl; lia).
    exact Hexp. }
  destruct (fuel - N)%nat as [|m] eqn:Hm; [lia|].
  inversion Hrest; subst; try congruence.
  rewrite app_nil_r in *.
  destruct (shape_projections env (frames_dir_of a) (1 / fps a) (conv_of b)
              (dims_of a b) b (clock env (n_time w)) cs1
              (EndExpired (clock env (n_time wn)))) as (E1 & E2 & _).
  rewrite Hev, E1, E2, !length_map, HL. simpl. auto.
Qed.

(** Ten frames a second for half a second: frames 0 to 4, then the duration
    check ends the run. *)
Lemma bounded_run_terminates_witness :
  let a := sample_args picamera2 10 (1 # 2) in
  let run := acquisition_loop picamera2 paced_env 20 a empty_world in
  camera_ok paced_env a picamera2 = true /\
  ~ (fps a == 0)%Q /\ (0 < seconds a)%Q /\ (5 < 20)%nat /\
  fst run = Ok tt /\
  length (imwrites (new_events empty_world (snd run))) = 5%nat /\
  length (writes (new_events empty_world (snd run))) = 5%nat /\
  handle (snd run) = None /\
  cam (snd run) = CamReleased.
Proof.
  intros a run.
  assert (H1 : camera_ok paced_env a picamera2 = true) by reflexivity.
  assert (H2 : ~ (fps a == 0)%Q) by discriminate.
  assert (H3 : (0 < seconds a)%Q) by reflexivity.
  assert (H4 : (5 < 20)%nat) by lia.
  repeat (split; [assumption|]).
  apply (bounded_run_terminates picamera2 paced_env 20 a empty_world 5 H1 H2 H3 H4).
  - intros j Hj.
    do 5 (destruct j as [|j]; [split; [reflexivity | split; [discriminate | reflexivity]]|]).
    lia.
  - discriminate.
Defined.

(** X7: Ctrl+C ends an unbounded run cleanly.  If the captures of cycles 0
    to [n] succeed and the interrupt arrives during the sleep of cycle [n],
    [main] returns normally after printing its two messages; the [n + 1]
    frames are saved, the header and the [n + 1] records have been written,
    and the log is closed. *)
Theorem interrupt_is_clean_stop (env : Env) (fuel : nat) (args : Args) (w : World)
    (n : nat) :
  camera_ok env args (backend args) = true ->
  ~ (fps args == 0)%Q ->
  (seconds args <= 0)%Q ->
  (n < fuel)%nat ->
  (forall j, (j <= n)%nat -> capture env (n_capture w + j) <> None) ->
  (forall j, (j < n)%nat -> sigint env (n_sleep w + j) = false) ->
  sigint env (n_sleep w + n) = true ->
  let m := main env fuel args w in
  fst m = Ok tt /\
  prints (new_events w (snd m)) =
    [ NL +:+ "Stopped by user (Ctrl+C).";
      "Saved frames under: " +:+ abspath env (out args) ] /\
  length (imwrites (new_events w (snd m))) = S n /\
  length (writes (new_events w (snd m))) = S (S n) /\
  handle (snd m) = None.
Proof.
  intros Hcam Hfps Hsec Hn Hcap Hquiet Hint. simpl.
  set (b := backend args) in *. set (hw := header_world env args w).
  pose proof (never_expired args (clock env (n_time hw)) Hsec) as Hnever.
  pose proof (trace_grows b env fuel args hw) as Hgrow.
  destruct (loop_trace b env fuel args hw)
    as [(x & _ & [Hc|Hf] & _)|(_ & _ & cs & e & w1 & HR & HL & Hev)];
    [congruence | contradiction |].
  destruct (runs_prefix _ _ _ _ _ _ _ _ _ n _ _ _ _ _ _ HR) as
    (cs1 & cs2 & wn & -> & Hlen & _ & Hc & Hs & Hrest); [lia| |].
  { intros j Hj. split; [apply Hnever|]. split; [apply Hcap; lia | now apply Hquiet]. }
  destruct (fuel - n)%nat as [|k] eqn:Hk; [lia|].
  simpl in Hc, Hs.
  inversion Hrest as [i0 w0|m0 i0 w0 Hx|m0 i0 w0 Hx Hc'|m0 i0 w0 frame Hx Hc' Hs'
                     |m0 i0 w0 frame cs' e' w'' Hx Hc' Hs' HR']; subst.
  - rewrite Hnever in Hx. discriminate.
  - rewrite Hc in Hc'. exact (False_ind _ (Hcap _ (le_n _) Hc')).
  - assert (Hfst : fst (acquisition_loop b env fuel args hw) = Raise KeyboardInterrupt)
      by (rewrite HL; reflexivity).
    assert (Hhan : handle (snd (acquisition_loop b env fuel args hw)) = None)
      by (rewrite HL; reflexivity).
    clear HL HR Hrest. rewrite Hev in Hgrow.
    pose proof (main_outcome env fuel args w) as Hm. simpl in Hm.
    fold b hw in Hm. rewrite Hm, Hfst.
    set (W1 := snd (acquisition_loop b env fuel args hw)) in *.
    simpl fst. simpl snd.
    destruct (shape_projections env (frames_dir_of args) (1 / fps args) (conv_of b)
                (dims_of args b) b (clock env (n_time hw))
                (cs1 ++ [this_cycle env (0 + Z.of_nat (length cs1)) frame wn])
                EndInterrupted) as (E1 & E2 & _).
    assert (Hnew : new_events w
              (emit (EvPrint ("Saved frames under: " +:+ abspath env (out args)))
                 (emit (EvPrint (NL +:+ "Stopped by user (Ctrl+C).")) W1)) =
              [EvWrite (header_text env args)] ++
              (EvTime (clock env (n_time hw))
                 :: flat_map (cycle_events env (frames_dir_of args) (1 / fps args)
                                (conv_of b) (dims_of args b))
                      (cs1 ++ [this_cycle env (0 + Z.of_nat (length cs1)) frame wn])
                 ++ end_events (fail_events_of b) EndInterrupted) ++
              [ EvPrint (NL +:+ "Stopped by user (Ctrl+C).");
                EvPrint ("Saved frames under: " +:+ abspath env (out args)) ]).
    { apply new_events_app. simpl trace. simpl in Hgrow. rewrite Hgrow.
      rewrite <- !app_assoc. reflexivity. }
    rewrite Hnew. split; [reflexivity|]. split; [|split; [|split; [|exact Hhan]]].
    + unfold prints. rewrite !omap_app.
      change (omap _ (EvTime ?t :: ?l)) with (prints l).
      unfold prints at 1. rewrite omap_app.
      fold (prints (flat_map (cycle_events env (frames_dir_of args) (1 / fps args)
                      (conv_of b) (dims_of args b))
                      (cs1 ++ [this_cycle env (0 + Z.of_nat (length cs1)) frame wn]))).
      rewrite prints_cycles. reflexivity.
    + unfold imwrites at 1. rewrite !omap_app.
      fold (imwrites (EvTime (clock env (n_time hw))
              :: flat_map (cycle_events env (frames_dir_of args) (1 / fps args)
                             (conv_of b) (dims_of args b))
                   (cs1 ++ [this_cycle env (0 + Z.of_nat (length cs1)) frame wn])
              ++ end_events (fail_events_of b) EndInterrupted)).
      rewrite E1. simpl. rewrite app_nil_r, length_map, length_app. simpl. lia.
    + unfold writes at 1. rewrite !omap_app.
      fold (writes (EvTime (clock env (n_time hw))
              :: flat_map (cycle_events env (frames_dir_of args) (1 / fps args)
                             (conv_of b) (dims_of args b))
                   (cs1 ++ [this_cycle env (0 + Z.of_nat (length cs1)) frame wn])
              ++ end_events (fail_events_of b) EndInterrupted)).
      rewrite E2. simpl. rewrite app_nil_r, length_map, length_app. simpl. lia.
  - rewrite Hs in Hs'. congruence.
Qed.

(** Ctrl+C during the third sleep: three frames kept, [main] returns. *)
Lemma interrupt_is_clean_stop_witness :
  let env := sample_env 5 (Some 2%nat) in
  let args := sample_args opencv 20 0 in
  let m := main env 10 args empty_world in
  camera_ok env args (backend args) = true /\
  ~ (fps args == 0)%Q /\ (seconds args <= 0)%Q /\ (2 < 10)%nat /\
  sigint env (n_sleep empty_world + 2) = true /\
  fst m = Ok tt /\
  prints (new_events empty_world (snd m)) =
    [ NL +:+ "Stopped by user (Ctrl+C).";
      "Saved frames under: " +:+ abspath env (out args) ] /\
  length (imwrites (new_events empty_world (snd m))) = 3%nat /\
  length (writes (new_events empty_world (snd m))) = 4%nat /\
  handle (snd m) = None.
Proof.
  intros env args m.
  assert (H1 : camera_ok env args (backend args) = true) by reflexivity.
  assert (H2 : ~ (fps args == 0)%Q) by discriminate.
  assert (H3 : (seconds args <= 0)%Q) by discriminate.
  assert (H4 : (2 < 10)%nat) by lia.
  assert (H5 : sigint env (n_sleep empty_world + 2) = true) by reflexivity.
  repeat (split; [assumption|]).
  apply (interrupt_is_clean_stop env 10 args empty_world 2 H1 H2 H3 H4); [| |exact H5].
  - intros j Hj. do 3 (destruct j as [|j]; [discriminate|]). lia.
  - intros j Hj. do 2 (destruct j as [|j]; [reflexivity|]). lia.
Defined.

(** X8: the metadata log is closed on every way out of a loop function that
    has opened it, exceptions included; while the loop is still running the
    log is open with nothing left in its buffer. *)
Theorem log_closed_on_exit (b : backend_t) (env : Env) (fuel : nat) (a : Args) (w : World) :
  camera_ok env a b = true ->
  ~ (fps a == 0)%Q ->
  handle (snd (acquisition_loop b env fuel a w)) =
    match fst (acquisition_loop b env fuel a w) with
    | Diverge => Some (os_path_join (out a) "meta.jsonl", EmptyString)
    | _ => None
    end.
Proof.
  intros Hcam Hfps.
  destruct (loop_cases b env fuel a w)
    as [(Hc & _)|[(_ & Hz & _)|(_ & _ & cs & e & w1 & HR & HL)]];
    [congruence | contradiction |].
  rewrite HL. simpl.
  pose proof (runs_handle _ _ _ _ _ _ _ _ _ _ _ _ _ _ _ HR eq_refl) as Hh.
  destruct (end_result (fail_exn_of b) e); simpl; auto.
Qed.

(** The Picamera2 loop of the failing third capture: the exception leaves
    the function and the log is closed all the same. *)
Lemma log_closed_on_exit_witness :
  let env := sample_env 2 None in
  let a := sample_args picamera2 10 0 in
  camera_ok env a picamera2 = true /\ ~ (fps a == 0)%Q /\
  fst (acquisition_loop picamera2 env 10 a empty_world) = Raise Picamera2Error /\
  handle (snd (acquisition_loop picamera2 env 10 a empty_world)) = None.
Proof.
  intros env a.
  assert (H1 : camera_ok env a picamera2 = true) by reflexivity.
  assert (H2 : ~ (fps a == 0)%Q) by discriminate.
  assert (H3 : fst (acquisition_loop picamera2 env 10 a empty_world)
               = Raise Picamera2Error) by (vm_compute; reflexivity).
  repeat (split; [assumption|]).
  rewrite (log_closed_on_exit picamera2 env 10 a empty_world H1 H2), H3. reflexivity.
Defined.

(** X10: running again into the same output directory.  The log of the
    second run is appended after that of the first, which stays as it was;
    the frame files of the second run are numbered from [000000] again, so
    frame [k] of the second run goes to the very file frame [k] of the first
    run went to, and at the end that file holds the image of the second
    run. *)
Theorem rerun_appends_and_overwrites (b : backend_t) (env1 env2 : Env)
    (fuel1 fuel2 : nat) (a : Args) (w : World) :
  let w1 := snd (acquisition_loop b env1 fuel1 a w) in
  let w2 := snd (acquisition_loop b env2 fuel2 a w1) in
  let name (k : nat) :=
    os_path_join (os_path_join (out a) "frames") (fmt_06d (Z.of_nat k) +:+ ".png") in
  content (files w2) (os_path_join (out a) "meta.jsonl") =
    (content (files w) (os_path_join (out a) "meta.jsonl")
     +:+ fold_right String.append EmptyString (writes (new_events w w1)))
    +:+ fold_right String.append EmptyString (writes (new_events w1 w2)) /\
  map fst (imwrites (new_events w w1)) =
    map name (seq 0 (length (imwrites (new_events w w1)))) /\
  map fst (imwrites (new_events w1 w2)) =
    map name (seq 0 (length (imwrites (new_events w1 w2)))) /\
  (forall (k : nat) (img : ndarray),
     imwrites (new_events w1 w2) !! k = Some (name k, img) ->
     files w2 !! name k = Some (png_encode env2 img)).
Proof.
  simpl.
  set (w1 := snd (acquisition_loop b env1 fuel1 a w)).
  destruct (loop_disk b env1 fuel1 a w) as (cs1 & Hi1 & Hw1 & Hcs1 & Hlog1 & _).
  destruct (loop_disk b env2 fuel2 a w1) as (cs2 & Hi2 & Hw2 & Hcs2 & Hlog2 & _).
  simpl in *. fold w1 in Hi1, Hw1, Hcs1, Hlog1.
  assert (Hnames : forall cs : list cycle,
            (forall k c, cs !! k = Some c -> c_idx c = Z.of_nat k) ->
            map fst (map (fun c => (frame_path (frames_dir_of a) (c_idx c),
                                    conv_of b (c_frame c))) cs) =
            map (fun k => frame_path (frames_dir_of a) (Z.of_nat k))
                (seq 0 (length cs))).
  { intros cs Hidx. rewrite map_map. simpl.
    change (map ?f ?l) with (f <$> l). apply list_eq. intros k.
    rewrite !list_lookup_fmap.
    destruct (cs !! k) as [c|] eqn:Hk; simpl.
    - rewrite lookup_seq_lt by (now apply lookup_lt_Some in Hk). simpl.
      now rewrite (Hidx k c Hk).
    - apply lookup_ge_None in Hk. now rewrite lookup_seq_ge. }
  split; [|split; [|split]].
  - fold (meta_path_of a). rewrite Hlog2, Hlog1, Hw1, Hw2. reflexivity.
  - rewrite Hi1, length_map. apply Hnames. intros k c Hk. now destruct (Hcs1 k c Hk).
  - rewrite Hi2, length_map. apply Hnames. intros k c Hk. now destruct (Hcs2 k c Hk).
  - intros k img Hk. rewrite Hi2 in Hk.
    change (map ?f ?l) with (f <$> l) in Hk. rewrite list_lookup_fmap in Hk.
    destruct (cs2 !! k) as [c|] eqn:Hc; [|discriminate].
    simpl in Hk. injection Hk as _ <-.
    destruct (Hcs2 k c Hc) as (_ & _ & _ & H). exact H.
Qed.

(** The third read fails: two frames, two records, the OpenCV loop prints
    its diagnostic, returns and releases the camera. *)
Lemma capture_failure_outcome_witness :
  let env := sample_env 2 None in
  let a := sample_args opencv 10 0 in
  let run := acquisition_loop opencv env 10 a empty_world in
  camera_ok env a opencv = true /\ ~ (fps a == 0)%Q /\ (seconds a <= 0)%Q /\
  (2 < 10)%nat /\ capture env (n_capture empty_world + 2) = None /\
  length (imwrites (new_events empty_world (snd run))) = 2%nat /\
  length (writes (new_events empty_world (snd run))) = 2%nat /\
  fst run = Ok tt /\ cam (snd run) = CamReleased /\
  prints (new_events empty_world (snd run)) = ["Frame read failed, stopping."].
Proof.
  intros env a run.
  assert (H1 : camera_ok env a opencv = true) by reflexivity.
  assert (H2 : ~ (fps a == 0)%Q) by discriminate.
  assert (H3 : (seconds a <= 0)%Q) by discriminate.
  assert (H4 : (2 < 10)%nat) by lia.
  assert (H5 : capture env (n_capture empty_world + 2) = None) by reflexivity.
  repeat (split; [assumption|]).
  apply (capture_failure_outcome opencv env 10 a empty_world 2 H1 H2 H3 H4); [|exact H5].
  intros j Hj. do 2 (destruct j as [|j]; [split; [discriminate | reflexivity]|]). lia.
Defined.

Lemma inverse_negative (x : Q) : (x < 0)%Q -> (1 / x < 0)%Q.
Proof.
  destruct x as [[|p|p] d]; unfold Qlt, Qdiv, Qmult, Qinv; simpl; lia.
Qed.

(** X12: when the clock never goes back, every sleep of a run lies between
    zero and the period: the loop never sleeps longer than [1 / fps], and
    with a negative [fps] it does not sleep at all. *)
Theorem sleep_bounds (b : backend_t) (env : Env) (fuel : nat) (a : Args) (w : World) :
  (forall m n : nat, (m <= n)%nat -> (clock env m <= clock env n)%Q) ->
  Forall (fun d : Q =>
            (0 <= d)%Q /\ (d <= py_max 0 (1 / fps a))%Q /\
            ((fps a < 0)%Q -> d = 0%Q))
         (sleeps (new_events w (snd (acquisition_loop b env fuel a w)))).
Proof.
  intros Hmono.
  destruct (loop_projections b env fuel a w) as (cs & _ & _ & Hs & _ & Hclk).
  simpl in Hs. rewrite Hs. apply Forall_forall. intros d Hd.
  apply list_elem_of_In, in_map_iff in Hd. destruct Hd as (c & <- & Hc).
  apply list_elem_of_In, list_elem_of_lookup in Hc. destruct Hc as (j & Hj).
  destruct (Hclk j c Hj) as [Hst Hen].
  assert (Hdt : (0 <= c_end c - c_start c)%Q).
  { rewrite Hst, Hen.
    pose proof (Hmono (n_time w + 1 + 2 * j)%nat (n_time w + 2 + 2 * j)%nat ltac:(lia)).
    lra. }
  unfold cycle_sleep. split; [apply py_max_nonneg|]. split.
  - destruct (Qlt_le_dec 0 (1 / fps a - (c_end c - c_start c))) as [Hpos|Hneg].
    + rewrite (py_max_pos _ Hpos), py_max_pos; lra.
    + rewrite (py_max_zero _ Hneg). apply py_max_nonneg.
  - intros Hf. apply py_max_zero. pose proof (inverse_negative _ Hf). lra.
Qed.

Lemma sleep_bounds_witness :
  let env := sample_env 3 None in
  let a := sample_args opencv (-10) 0 in
  (forall m n : nat, (m <= n)%nat -> (clock env m <= clock env n)%Q) /\
  Forall (fun d : Q =>
            (0 <= d)%Q /\ (d <= py_max 0 (1 / fps a))%Q /\
            ((fps a < 0)%Q -> d = 0%Q))
         (sleeps (new_events empty_world
                    (snd (acquisition_loop opencv env 6 a empty_world)))).
Proof.
  intros env a.
  assert (H : forall m n : nat, (m <= n)%nat -> (clock env m <= clock env n)%Q).
  { intros m n Hmn. unfold Qle. cbn [clock env sample_env Qnum Qden]. lia. }
  split; [exact H|].
  exact (sleep_bounds opencv env 6 a empty_world H).
Defined.
